(** * Chapter5_Pointers_And_Strings/excercise_12.cpp

    Shuffle a 52-card deck, deal two five-card poker hands and classify
    them.  The C++ functions are embedded as Rocq functions over an error
    monad; arrays are lists read and written through checked indices, so
    that an access outside an array shows up as [Fault].  Console output
    ([cout]) is not part of the embedding. *)

From stdpp Require Import base numbers list.

Local Open Scope Z_scope.

(** ** Machine integers *)

(** [int] is a 32-bit two's-complement integer; [wrap] brings a
    mathematical result back into its range. *)
Definition wrap (x : Z) : Z := (x + 2147483648) `mod` 4294967296 - 2147483648.

Definition int_add (a b : Z) : Z := wrap (a + b).

(** ** Outcomes of a run *)

(** [Ok a]: normal completion.  [Fault]: an array was indexed outside its
    bounds (undefined behaviour in the program).  [Timeout]: a loop with
    no static bound used up the iterations it was given. *)
Inductive outcome (A : Type) : Type :=
  | Ok (a : A)
  | Fault
  | Timeout.

Arguments Ok {A} a.
Arguments Fault {A}.
Arguments Timeout {A}.

(** Sequencing: the first failure ends the run.  With these instances
    [x ← m; k] is the monadic bind. *)
#[global] Instance outcome_ret : MRet outcome := λ A a, Ok a.

#[global] Instance outcome_bind : MBind outcome := λ A B k m,
  match m with
  | Ok a => k a
  | Fault => Fault
  | Timeout => Timeout
  end.

(** ** Arrays *)

(** [a[i]] as an rvalue. *)
Definition load (a : list Z) (i : Z) : outcome Z :=
  if 0 <=? i then
    match a !! Z.to_nat i with
    | Some v => Ok v
    | None => Fault
    end
  else Fault.

(** [a[i] = v]. *)
Definition store (a : list Z) (i : Z) (v : Z) : outcome (list Z) :=
  if (0 <=? i) && (i <? Z.of_nat (length a))
  then Ok (<[Z.to_nat i := v]> a)
  else Fault.

(** [a[i]++]. *)
Definition incr (a : list Z) (i : Z) : outcome (list Z) :=
  v ← load a i;
  store a i (int_add v 1).

(** ** Loops *)

(** [for (i = first; ...; i++) body] over the listed values of [i], with
    no early exit. *)
Fixpoint for_each {S : Type} (idx : list Z) (body : Z → S → outcome S) (s : S)
  : outcome S :=
  match idx with
  | [] => Ok s
  | i :: rest => s' ← body i s; for_each rest body s'
  end.

(** A loop body either falls through to the next iteration or leaves the
    enclosing function with [return r]. *)
Inductive flow (S R : Type) : Type :=
  | Next (s : S)
  | Return (r : R).

Arguments Next {S R} s.
Arguments Return {S R} r.

Fixpoint for_return {S R : Type} (idx : list Z)
    (body : Z → S → outcome (flow S R)) (s : S) : outcome (flow S R) :=
  match idx with
  | [] => Ok (Next s)
  | i :: rest =>
      f ← body i s;
      match f with
      | Next s' => for_return rest body s'
      | Return r => Ok (Return r)
      end
  end.

(** ** The deck *)

(** [int deck[4][13]]: 52 contiguous ints in row-major order, slot
    [deck[p][q]] at offset [13 * p + q]. *)
Abbreviation deck := (list Z).

Definition DECKSIZE : Z := 52.
Definition HANDSIZE : Z := 5.

Definition in_grid (p q : Z) : bool :=
  (0 <=? p) && (p <? 4) && (0 <=? q) && (q <? 13).

Definition deck_get (d : deck) (p q : Z) : outcome Z :=
  if in_grid p q then load d (13 * p + q) else Fault.

Definition deck_set (d : deck) (p q v : Z) : outcome deck :=
  if in_grid p q then store d (13 * p + q) v else Fault.

(** ** shuffleDeck *)

(** The pseudo-random generator: [rnd k] is the value returned by the
    [k]-th call of [rand()], a number between 0 and RAND_MAX.  The state
    threaded through the code is the number of calls made so far. *)
Definition rand_source := nat → N.

Definition rand (rnd : rand_source) (pos : nat) : Z * nat :=
  (Z.of_N (rnd pos), S pos).

(** Lines 83-87: clear the deck. *)
Definition clear_deck (d : deck) : outcome deck :=
  for_each (seqZ 0 4) (λ r d,
    for_each (seqZ 0 13) (λ c d, deck_set d r c 0) d) d.

(** Lines 92-95: the do-while loop drawing a slot until an empty one is
    found.  [fuel] bounds the number of iterations. *)
Fixpoint draw_empty_slot (fuel : nat) (rnd : rand_source) (pos : nat) (d : deck)
  : outcome (Z * Z * nat) :=
  match fuel with
  | O => Timeout
  | S fuel' =>
      let '(r1, pos1) := rand rnd pos in
      let row := Z.rem r1 4 in
      let '(r2, pos2) := rand rnd pos1 in
      let col := Z.rem r2 13 in
      v ← deck_get d row col;
      if negb (v =? 0) then draw_empty_slot fuel' rnd pos2 d
      else Ok (row, col, pos2)
  end.

(** Lines 90-98: place the order numbers [i]. *)
Definition place_orders (fuel : nat) (rnd : rand_source) (orders : list Z)
    (s : deck * nat) : outcome (deck * nat) :=
  for_each orders (λ i '(d, pos),
    '(row, col, pos') ← draw_empty_slot fuel rnd pos d;
    d' ← deck_set d row col i;
    Ok (d', pos')) s.

Definition shuffleDeck (fuel : nat) (rnd : rand_source) (pos : nat) (d : deck)
  : outcome (deck * nat) :=
  d0 ← clear_deck d;
  place_orders fuel rnd (seqZ 1 DECKSIZE) (d0, pos).

(** A source whose draws are (0,0), (1,1), (2,2), ...: the [j]-th pair of
    calls yields row [j mod 4] and column [j mod 13]. *)
Definition cycle_source : rand_source := λ k, N.of_nat ((k / 2) mod 52).

(** The deck that source produces. *)
Definition cycle_deck : deck :=
  [ 1; 41; 29; 17; 5; 45; 33; 21; 9; 49; 37; 25; 13;
    14; 2; 42; 30; 18; 6; 46; 34; 22; 10; 50; 38; 26;
    27; 15; 3; 43; 31; 19; 7; 47; 35; 23; 11; 51; 39;
    40; 28; 16; 4; 44; 32; 20; 8; 48; 36; 24; 12; 52 ].

(** ** Rank conversion *)

Definition rankValueFromFaceIndex (faceIdx : Z) : Z :=
  if faceIdx =? 0 then 14 else int_add faceIdx 1.

(** ** The hand being built *)

(** The four output arrays of one hand: [handSuite[5]], [handRank[5]],
    [handRankCount[15]] and [handSuiteCount[4]]. *)
Record hand := Hand {
  handSuite : list Z;
  handRank : list Z;
  rankCount : list Z;
  suitCount : list Z
}.

(** The sizes the arrays are declared with. *)
Definition declared (h : hand) : Prop :=
  length (handSuite h) = 5%nat ∧ length (handRank h) = 5%nat ∧
  length (rankCount h) = 15%nat ∧ length (suitCount h) = 4%nat.

(** ** clearCountArrays *)

Definition clearCountArrays (rc sc : list Z) : outcome (list Z * list Z) :=
  rc' ← for_each (seqZ 0 15) (λ i a, store a i 0) rc;
  sc' ← for_each (seqZ 0 4) (λ i a, store a i 0) sc;
  Ok (rc', sc').

(** ** dealFiveCardHandFromOrderRange *)

(** Lines 164-171: the card at [deck[p][q]] is the one wanted for
    position [dealIdx] of the hand. *)
Definition record_card (dealIdx p q : Z) (h : hand) : outcome hand :=
  hs ← store (handSuite h) dealIdx p;
  let rank := rankValueFromFaceIndex q in
  hr ← store (handRank h) dealIdx rank;
  rc ← incr (rankCount h) rank;
  sc ← incr (suitCount h) p;
  Ok (Hand hs hr rc sc).

(** Lines 154-174: scan the whole deck for [orderWanted]. *)
Definition scan_deck (d : deck) (orderWanted dealIdx : Z) (h : hand)
  : outcome hand :=
  for_each (seqZ 0 4) (λ p h,
    for_each (seqZ 0 13) (λ q h,
      v ← deck_get d p q;
      if v =? orderWanted then record_card dealIdx p q h else Ok h) h) h.

Definition dealFiveCardHandFromOrderRange (d : deck) (startOrder : Z) (h : hand)
  : outcome hand :=
  for_each (seqZ 0 HANDSIZE) (λ dealIdx h,
    let orderWanted := int_add startOrder dealIdx in
    scan_deck d orderWanted dealIdx h) h.

(** Lines 379-386 and 395-402 of [main]: reset the counts, then deal. *)
Definition deal_fresh_hand (d : deck) (startOrder : Z) (h : hand)
  : outcome hand :=
  '(rc, sc) ← clearCountArrays (rankCount h) (suitCount h);
  dealFiveCardHandFromOrderRange d startOrder
    (Hand (handSuite h) (handRank h) rc sc).

(** ** The fail-fast variant of the specification *)

(** The specification asks a reimplementation to stop with an error when
    a frequency-table index falls outside 2..14 (ranks) or 0..3 (suits).
    [incr_checked lo hi a i] is [a[i]++] behind that check on the index
    [i] it is handed; [record_card_checked], [scan_deck_checked] and
    [deal_checked] are lines 136-176 with the two table updates of lines
    170-171 replaced by checked ones. *)
Definition incr_checked (lo hi : Z) (a : list Z) (i : Z) : outcome (list Z) :=
  if (lo <=? i) && (i <=? hi) then incr a i else Fault.

Definition record_card_checked (dealIdx p q : Z) (h : hand) : outcome hand :=
  hs ← store (handSuite h) dealIdx p;
  let rank := rankValueFromFaceIndex q in
  hr ← store (handRank h) dealIdx rank;
  rc ← incr_checked 2 14 (rankCount h) rank;
  sc ← incr_checked 0 3 (suitCount h) p;
  Ok (Hand hs hr rc sc).

Definition scan_deck_checked (d : deck) (orderWanted dealIdx : Z) (h : hand)
  : outcome hand :=
  for_each (seqZ 0 4) (λ p h,
    for_each (seqZ 0 13) (λ q h,
      v ← deck_get d p q;
      if v =? orderWanted then record_card_checked dealIdx p q h else Ok h) h) h.

Definition deal_checked (d : deck) (startOrder : Z) (h : hand) : outcome hand :=
  for_each (seqZ 0 HANDSIZE) (λ dealIdx h,
    let orderWanted := int_add startOrder dealIdx in
    scan_deck_checked d orderWanted dealIdx h) h.

(** ** Hand evaluation *)

Definition countRanksWithFrequency (rankCount : list Z) (N : Z) : outcome Z :=
  for_each (seqZ 2 13) (λ r count,
    v ← load rankCount r;
    if v =? N then Ok (int_add count 1) else Ok count) 0.

Definition isFlush (suitCount : list Z) : outcome bool :=
  f ← for_return (seqZ 0 4) (λ s (_ : unit),
         v ← load suitCount s;
         if v =? 5 then Ok (Return true) else Ok (Next ())) ();
  match f with
  | Return b => Ok b
  | Next _ => Ok false
  end.

(** [a && b] evaluates [b] only when [a] holds. *)
Definition and_then (a b : outcome bool) : outcome bool :=
  a ≫= λ x : bool, if x then b else Ok false.

Definition is_one (rankCount : list Z) (r : Z) : outcome bool :=
  v ← load rankCount r; Ok (v =? 1).

(** Lines 226-230: the test for A-2-3-4-5. *)
Definition is_wheel (rankCount : list Z) : outcome bool :=
  and_then (is_one rankCount 14)
    (and_then (is_one rankCount 2)
      (and_then (is_one rankCount 3)
        (and_then (is_one rankCount 4) (is_one rankCount 5)))).

(** Lines 236-244: the scan for a run of five consecutive ranks. *)
Definition run_of_five (rankCount : list Z) : outcome (flow Z bool) :=
  for_return (seqZ 2 13) (λ r runLength,
    v ← load rankCount r;
    if v =? 1 then
      let runLength := int_add runLength 1 in
      if runLength =? 5 then Ok (Return true) else Ok (Next runLength)
    else Ok (Next 0)) 0.

Definition isStraight (rankCount : list Z) : outcome bool :=
  n ← countRanksWithFrequency rankCount 1;
  if negb (n =? 5) then Ok false
  else
    wheel ← is_wheel rankCount;
    if wheel : bool then Ok true
    else
      f ← run_of_five rankCount;
      match f with
      | Return b => Ok b
      | Next _ => Ok false
      end.

Definition isOnePair (rankCount : list Z) : outcome bool :=
  n ← countRanksWithFrequency rankCount 2; Ok (n =? 1).

Definition isTwoPair (rankCount : list Z) : outcome bool :=
  n ← countRanksWithFrequency rankCount 2; Ok (n =? 2).

Definition isThreeOfAKind (rankCount : list Z) : outcome bool :=
  and_then (n ← countRanksWithFrequency rankCount 3; Ok (n =? 1))
           (n ← countRanksWithFrequency rankCount 2; Ok (n =? 0)).

Definition isFourOfAKind (rankCount : list Z) : outcome bool :=
  n ← countRanksWithFrequency rankCount 4; Ok (n =? 1).

Definition isFullHouse (rankCount : list Z) : outcome bool :=
  and_then (n ← countRanksWithFrequency rankCount 3; Ok (n =? 1))
           (n ← countRanksWithFrequency rankCount 2; Ok (n =? 1)).

(** The [if ... else if ...] chain of [handleHand]: the first condition
    that holds decides the priority. *)
Fixpoint first_match (ladder : list (outcome bool * Z)) (otherwise : Z)
  : outcome Z :=
  match ladder with
  | [] => Ok otherwise
  | (cond, prio) :: rest =>
      cond ≫= λ b : bool, if b then Ok prio else first_match rest otherwise
  end.

Definition handleHand (rankCount suitCount : list Z) : outcome Z :=
  first_match
    [ (and_then (isStraight rankCount) (isFlush suitCount), 1);
      (isFourOfAKind rankCount, 2);
      (isFullHouse rankCount, 3);
      (isFlush suitCount, 4);
      (isStraight rankCount, 5);
      (isThreeOfAKind rankCount, 6);
      (isTwoPair rankCount, 7);
      (isOnePair rankCount, 8) ]
    9.

(** ** Frequency tables of a hand *)

(** The table that holds, at each index below [n], the number of
    occurrences of that index in [l]. *)
Definition count_table (n : Z) (l : list Z) : list Z :=
  (λ i, Z.of_nat (length (filter (λ x, x = i) l))) <$> seqZ 0 n.

(** The rank table ([int[15]]) and the suit table ([int[4]]) of the cards
    with the given ranks and suits. *)
Definition rank_table (ranks : list Z) : list Z := count_table 15 ranks.
Definition suit_table (suits : list Z) : list Z := count_table 4 suits.

Definition sum_list (l : list Z) : Z := foldr Z.add 0 l.

(** The sum of the [n] entries of [a] from index [lo] on. *)
Definition table_sum (a : list Z) (lo n : nat) : Z :=
  sum_list (take n (drop lo a)).

(** ** Hands as lists of cards *)

(** A card is the slot (suit index, face index) it occupies in the deck. *)
Definition card_suits (cs : list (Z * Z)) : list Z := fst <$> cs.
Definition card_ranks (cs : list (Z * Z)) : list Z :=
  (λ c, rankValueFromFaceIndex (snd c)) <$> cs.

(** [cs] are the cards with the order numbers [start], [start + 1], ... *)
Definition dealt (d : deck) (start : Z) (cs : list (Z * Z)) : Prop :=
  ∀ (k : nat) (p q : Z),
    cs !! k = Some (p, q) → deck_get d p q = Ok (start + Z.of_nat k).

(** The output arrays once the cards [cs] have been recorded, starting
    from zeroed count arrays and hand arrays [hs0] and [hr0]. *)
Definition hand_of (cs : list (Z * Z)) (hs0 hr0 : list Z) : hand :=
  Hand (card_suits cs ++ drop (length cs) hs0)
       (card_ranks cs ++ drop (length cs) hr0)
       (rank_table (card_ranks cs))
       (suit_table (card_suits cs)).

(** ** Properties of decks and random sources *)

(** The bijection invariant of a deck: its 52 slots hold the order
    numbers 1..52, each exactly once. *)
Definition valid_deck (d : deck) : Prop := d ≡ₚ seqZ 1 52.

(** The slot drawn by the [j]-th iteration of a do-while loop whose first
    call of [rand()] is call number [pos]. *)
Definition draw (rnd : rand_source) (pos j : nat) : Z * Z :=
  (Z.rem (Z.of_N (rnd (pos + 2 * j)%nat)) 4,
   Z.rem (Z.of_N (rnd (pos + 2 * j + 1)%nat)) 13).

(** A fair source: from any point on, every slot is eventually drawn. *)
Definition fair_from (rnd : rand_source) (pos : nat) : Prop :=
  ∀ (n : nat) (r c : Z), 0 ≤ r < 4 → 0 ≤ c < 13 →
    ∃ j : nat, (n ≤ j)%nat ∧ draw rnd pos j = (r, c).

(** ** The category ladder of the specification *)

(** The entry of a table at an index inside it. *)
Definition entry (a : list Z) (i : Z) : Z := default 0 (a !! Z.to_nat i).

(** Rank [r] (2..14) occurs [n] times in the hand. *)
Definition has_count (rc : list Z) (n r : Z) : Prop :=
  2 ≤ r ≤ 14 ∧ entry rc r = n.

(** Zero, exactly one, exactly two ranks with count [n]. *)
Definition no_rank (rc : list Z) (n : Z) : Prop :=
  ∀ r, ¬ has_count rc n r.

Definition one_rank (rc : list Z) (n : Z) : Prop :=
  ∃ r, has_count rc n r ∧ ∀ r', has_count rc n r' → r' = r.

Definition two_ranks (rc : list Z) (n : Z) : Prop :=
  ∃ r1 r2, r1 ≠ r2 ∧ has_count rc n r1 ∧ has_count rc n r2 ∧
           ∀ r', has_count rc n r' → r' = r1 ∨ r' = r2.

(** One suit with count 5. *)
Definition flush (sc : list Z) : Prop := ∃ s, 0 ≤ s ≤ 3 ∧ entry sc s = 5.

(** The ranks held exactly once are five consecutive ranks, or they are
    the wheel A-2-3-4-5. *)
Definition straight (rc : list Z) : Prop :=
  (∃ lo, 2 ≤ lo ≤ 10 ∧ ∀ r, has_count rc 1 r ↔ lo ≤ r ≤ lo + 4) ∨
  (∀ r, has_count rc 1 r ↔ 2 ≤ r ≤ 5 ∨ r = 14).

(** First match wins: [n] is the value of the first condition that
    holds, [otherwise] if none does. *)
Fixpoint first_holding (ladder : list (Prop * Z)) (otherwise n : Z) : Prop :=
  match ladder with
  | [] => n = otherwise
  | (c, k) :: rest => (c ∧ n = k) ∨ (¬ c ∧ first_holding rest otherwise n)
  end.

Definition category (rc sc : list Z) (n : Z) : Prop :=
  first_holding
    [ (straight rc ∧ flush sc, 1);
      (one_rank rc 4, 2);
      (one_rank rc 3 ∧ one_rank rc 2, 3);
      (flush sc, 4);
      (straight rc, 5);
      (one_rank rc 3 ∧ no_rank rc 2, 6);
      (two_ranks rc 2, 7);
      (one_rank rc 2, 8) ]
    9 n.

(** A hand whose rank counts are {a, b}: one rank occurs [a] times,
    another [b] times, and no other rank occurs. *)
Definition rank_counts_are (rc : list Z) (a b : Z) : Prop :=
  ∃ x y, x ≠ y ∧ has_count rc a x ∧ has_count rc b y ∧
         ∀ r, 2 ≤ r ≤ 14 → r ≠ x → r ≠ y → entry rc r = 0.

(** The ranks 2..14 with count [n], in ascending order. *)
Definition ranks_with (rc : list Z) (n : Z) : list Z :=
  filter (λ r, entry rc r = n) (seqZ 2 13).

(** ** Tables up to the tests of isStraight *)

(** isStraight only ever asks whether an entry is 1.  A table is thus
    represented, for that function, by the 13 answers for ranks 2..14. *)
Definition one_flags (rc : list Z) : list bool :=
  (λ r, bool_decide (entry rc r = 1)) <$> seqZ 2 13.

Definition table_of_flags (bs : list bool) : list Z :=
  0 :: 0 :: ((λ b : bool, if b then 1 else 0) <$> bs).

Fixpoint all_flags (n : nat) : list (list bool) :=
  match n with
  | O => [[]]
  | S n' => ((cons true) <$> all_flags n') ++ ((cons false) <$> all_flags n')
  end.

(** The straights as lists of ranks. *)
Definition straight_windows : list (list Z) :=
  ((λ lo, seqZ lo 5) <$> seqZ 2 9) ++ [[2; 3; 4; 5; 14]].

#[global] Instance outcome_eq_dec {A : Type} `{EqDecision A} : EqDecision (outcome A).
Proof. solve_decision. Defined.

(** ** main *)

(** The message of lines 412-419. *)
Inductive verdict : Type :=
  | HAND_A_wins
  | HAND_B_wins
  | Tie.

(** The global hand arrays as they are when the program starts: all
    zero (lines 29-38). *)
Definition zero_hand : hand :=
  Hand (replicate 5 0) (replicate 5 0) (replicate 15 0) (replicate 4 0).

(** What [main] has computed when it returns: the shuffled deck, the two
    hands, their priorities and the message about the winner. *)
Record main_result := MainResult {
  shuffled : deck;
  handA : hand;
  handB : hand;
  priorityA : Z;
  priorityB : Z;
  winner : verdict
}.

(** Lines 365-422.  [rnd] is the generator as [srand] has seeded it and
    [deck0] the contents of the local array [deck] before it is
    initialised. *)
Definition main (fuel : nat) (rnd : rand_source) (deck0 : deck)
  : outcome main_result :=
  '(d, _) ← shuffleDeck fuel rnd 0 deck0;
  hA ← deal_fresh_hand d 1 zero_hand;
  pA ← handleHand (rankCount hA) (suitCount hA);
  hB ← deal_fresh_hand d 6 zero_hand;
  pB ← handleHand (rankCount hB) (suitCount hB);
  Ok (MainResult d hA hB pA pB
        (if pA <? pB then HAND_A_wins
         else if pB <? pA then HAND_B_wins
         else Tie)).

(** ** Counts added to a table *)


(** The cards of a hand as (suit, rank) pairs. *)
Definition hand_cards (h : hand) : list (Z * Z) :=
  zip (handSuite h) (handRank h).



(** The hand holds tables that count [n] recorded cards. *)
Definition counts_cards (n : nat) (h : hand) : Prop :=
  declared h ∧
  ∃ cs : list (Z * Z),
    length cs = n ∧
    Forall (λ c, (0 ≤ c.1 < 4) ∧ (0 ≤ c.2 < 13)) cs ∧
    rankCount h = rank_table (card_ranks cs) ∧
    suitCount h = suit_table (card_suits cs).

(** Whether slot [deck[p][q]] holds [v], as 1 or 0, and the number of
    slots of the deck that hold [v]. *)
Definition slot_hit (d : deck) (v p q : Z) : nat :=
  if bool_decide (entry d (13 * p + q) = v) then 1 else 0.

Definition slot_hits (d : deck) (v : Z) : nat :=
  sum_list_with (λ p, sum_list_with (λ q, slot_hit d v p q) (seqZ 0 13))
                (seqZ 0 4).

(** Write the index range of a loop with constant bounds out. *)
Ltac unroll_seqZ :=
  repeat match goal with
  | |- context [seqZ ?a ?n] =>
      let l := eval vm_compute in (seqZ a n) in change (seqZ a n) with l
  end.

(** * Proofs *)

Example shuffle_cycle :
  shuffleDeck 1 cycle_source 0 (replicate 52 7) = Ok (cycle_deck, 104%nat).
Proof. vm_compute. reflexivity. Qed.

Example deal_cycle_A :
  deal_fresh_hand cycle_deck 1 (Hand [9;9;9;9;9] [9;9;9;9;9] (replicate 15 9) (replicate 4 9)) =
  Ok (Hand [0;1;2;3;0] [14;2;3;4;5] (rank_table [14;2;3;4;5]) [2;1;1;1]).
Proof. vm_compute. reflexivity. Qed.

Example classify_wheel :
  isStraight (rank_table [14;2;3;4;5]) = Ok true ∧
  isStraight (rank_table [2;3;4;5;7]) = Ok false ∧
  handleHand (rank_table [10;11;12;13;14]) [0;0;0;5] = Ok 1 ∧
  handleHand (rank_table [2;2;2;2;5]) [1;1;1;2] = Ok 2 ∧
  handleHand (rank_table [2;2;2;5;5]) [1;1;1;2] = Ok 3.
Proof. vm_compute. repeat split. Qed.

(** ** The monad, arrays and loops *)

Lemma bind_Ok {A B : Type} (m : outcome A) (k : A → outcome B) (b : B) :
  m ≫= k = Ok b ↔ ∃ a, m = Ok a ∧ k a = Ok b.
Proof.
  split.
  - destruct m as [a| |]; simpl; intros H; try discriminate. by exists a.
  - intros (a & -> & H). exact H.
Qed.

Lemma load_Ok (a : list Z) (i v : Z) :
  load a i = Ok v ↔ 0 ≤ i ∧ a !! Z.to_nat i = Some v.
Proof.
  unfold load. destruct (Z.leb_spec 0 i) as [Hi|Hi].
  - destruct (a !! Z.to_nat i) eqn:E; split; intros H.
    + split; [done|]. by injection H as ->.
    + destruct H as [_ H]. by injection H as ->.
    + discriminate.
    + by destruct H.
  - split; [discriminate | lia].
Qed.

Lemma load_in_range (a : list Z) (i : Z) :
  0 ≤ i < Z.of_nat (length a) → ∃ v, load a i = Ok v ∧ a !! Z.to_nat i = Some v.
Proof.
  intros Hi. destruct (lookup_lt_is_Some_2 a (Z.to_nat i)) as [v Hv]; [lia|].
  exists v. split; [|done]. apply load_Ok. split; [lia|done].
Qed.

Lemma store_Ok (a a' : list Z) (i v : Z) :
  store a i v = Ok a' ↔
  0 ≤ i < Z.of_nat (length a) ∧ a' = <[Z.to_nat i := v]> a.
Proof.
  unfold store.
  destruct (Z.leb_spec 0 i), (Z.ltb_spec i (Z.of_nat (length a))); simpl;
    split; intros Hs; try discriminate; try lia.
  - split; [lia|]. by injection Hs as <-.
  - destruct Hs as [_ ->]. done.
Qed.

Lemma store_in_range (a : list Z) (i v : Z) :
  0 ≤ i < Z.of_nat (length a) → store a i v = Ok (<[Z.to_nat i := v]> a).
Proof. intros Hi. by apply store_Ok. Qed.


(** Loop invariant: a property kept by every iteration, none of which
    fails, holds when the loop is left, and the loop does not fail. *)
Lemma for_each_invariant {S : Type} (P : S → Prop) (idx : list Z)
    (body : Z → S → outcome S) (s : S) :
  (∀ i s, i ∈ idx → P s → ∃ s', body i s = Ok s' ∧ P s') →
  P s → ∃ s', for_each idx body s = Ok s' ∧ P s'.
Proof.
  revert s. induction idx as [|i idx IH]; intros s Hbody Hs; simpl.
  - by exists s.
  - destruct (Hbody i s) as (s1 & -> & Hs1); [left|done|]. simpl.
    apply IH; [|done]. intros j t Hj. apply Hbody. by right.
Qed.

(** A loop whose iterations all leave the state alone does nothing. *)
Lemma for_each_skip {S : Type} (idx : list Z) (body : Z → S → outcome S) (s : S) :
  (∀ i, i ∈ idx → body i s = Ok s) → for_each idx body s = Ok s.
Proof.
  induction idx as [|i idx IH]; intros H; simpl; [done|].
  rewrite H by left. simpl. apply IH. intros j Hj. apply H. by right.
Qed.

(** A loop with a single iteration that acts is that iteration. *)
Lemma for_each_single {S : Type} (idx : list Z) (body : Z → S → outcome S)
    (i0 : Z) (s s' : S) :
  NoDup idx → i0 ∈ idx →
  (∀ i t, i ∈ idx → i ≠ i0 → body i t = Ok t) →
  body i0 s = Ok s' →
  for_each idx body s = Ok s'.
Proof.
  induction idx as [|i idx IH]; intros Hnd Hin Hskip Hhit.
  - by apply elem_of_nil in Hin.
  - apply NoDup_cons in Hnd as [Hni Hnd]. simpl.
    destruct (decide (i = i0)) as [->|Hne].
    + rewrite Hhit. simpl. apply for_each_skip.
      intros j Hj. apply Hskip; [by right|]. by intros ->.
    + rewrite Hskip; [|by left|done]. simpl.
      apply elem_of_cons in Hin as [->|Hin]; [done|].
      apply IH; [done|done| |done].
      intros j t Hj. apply Hskip. by right.
Qed.

(** ** Slots of the deck *)

Lemma in_grid_spec (p q : Z) : in_grid p q = true ↔ 0 ≤ p < 4 ∧ 0 ≤ q < 13.
Proof. unfold in_grid. rewrite !andb_true_iff. lia. Qed.

Lemma deck_get_Ok (d : deck) (p q v : Z) :
  deck_get d p q = Ok v ↔
  (0 ≤ p < 4 ∧ 0 ≤ q < 13) ∧ d !! Z.to_nat (13 * p + q) = Some v.
Proof.
  unfold deck_get. destruct (in_grid p q) eqn:E.
  - apply in_grid_spec in E. rewrite load_Ok. split; [intros []|intros [_ ?]]; split; (done || lia).
  - split; [discriminate|]. intros [H _]. apply in_grid_spec in H. congruence.
Qed.

Lemma deck_get_total (d : deck) (p q : Z) :
  length d = 52%nat → 0 ≤ p < 4 → 0 ≤ q < 13 → ∃ v, deck_get d p q = Ok v.
Proof.
  intros Hlen Hp Hq.
  destruct (lookup_lt_is_Some_2 d (Z.to_nat (13 * p + q))) as [v Hv]; [lia|].
  exists v. by apply deck_get_Ok.
Qed.

Lemma deck_set_Ok (d d' : deck) (p q v : Z) :
  deck_set d p q v = Ok d' ↔
  (0 ≤ p < 4 ∧ 0 ≤ q < 13) ∧ 13 * p + q < Z.of_nat (length d) ∧
  d' = <[Z.to_nat (13 * p + q) := v]> d.
Proof.
  unfold deck_set. destruct (in_grid p q) eqn:E.
  - apply in_grid_spec in E. rewrite store_Ok. split; intros H; repeat split; (tauto || lia).
  - split; [discriminate|]. intros [H _]. apply in_grid_spec in H. congruence.
Qed.

(** Every offset of the deck is a slot of the grid. *)
Lemma slot_of_offset (i : nat) :
  (i < 52)%nat → ∃ p q, (0 ≤ p < 4 ∧ 0 ≤ q < 13) ∧ Z.to_nat (13 * p + q) = i.
Proof.
  intros Hi. exists (Z.of_nat i `div` 13), (Z.of_nat i `mod` 13).
  split; [split|]; Z.div_mod_to_equations; lia.
Qed.

Lemma clear_deck_zero (d : deck) :
  length d = 52%nat → clear_deck d = Ok (replicate 52 0).
Proof.
  intros Hlen.
  do 52 (destruct d as [|? d]; [discriminate Hlen|]).
  destruct d; [reflexivity|discriminate Hlen].
Qed.

(** ** shuffleDeck: what it leaves in the deck *)

Lemma draw_empty_slot_Ok (fuel : nat) (rnd : rand_source) (pos : nat) (d : deck)
    (row col : Z) (pos' : nat) :
  draw_empty_slot fuel rnd pos d = Ok (row, col, pos') →
  deck_get d row col = Ok 0.
Proof.
  revert pos. induction fuel as [|fuel IH]; intros pos; simpl; [discriminate|].
  intros H. apply bind_Ok in H as (v & Hget & H).
  destruct (Z.eqb_spec v 0) as [->|Hv]; simpl in H.
  - injection H as <- <- <-. exact Hget.
  - eapply IH. exact H.
Qed.

(** Overwriting an empty slot swaps one 0 of the multiset for the new
    order number. *)
Lemma fill_slot_perm (d : list Z) (j : nat) (i : Z) (A R : list Z) :
  d !! j = Some 0 → d ≡ₚ A ++ 0 :: R → <[j:=i]> d ≡ₚ A ++ i :: R.
Proof.
  intros Hj Hperm.
  assert (Hlt : (j < length d)%nat) by (apply lookup_lt_is_Some; eauto).
  rewrite insert_take_drop by done.
  rewrite <- (take_drop_middle d j 0 Hj) in Hperm.
  apply Permutation_app_inv in Hperm.
  rewrite <- !Permutation_middle. by constructor.
Qed.

Lemma place_orders_perm (fuel : nat) (rnd : rand_source) (n m : nat) :
  ∀ (k : nat) (d : deck) (pos : nat) (d' : deck) (pos' : nat),
    d ≡ₚ seqZ 1 (Z.of_nat k) ++ replicate (n + m) 0 →
    place_orders fuel rnd (seqZ (1 + Z.of_nat k) (Z.of_nat n)) (d, pos)
      = Ok (d', pos') →
    d' ≡ₚ seqZ 1 (Z.of_nat (k + n)) ++ replicate m 0.
Proof.
  unfold place_orders.
  induction n as [|n IH]; intros k d pos d' pos' Hd Hrun.
  - simpl in Hrun. injection Hrun as <- <-. by rewrite Nat.add_0_r.
  - rewrite seqZ_cons in Hrun by lia. simpl in Hrun.
    apply bind_Ok in Hrun as ([d1 pos1] & Hstep & Hrest).
    apply bind_Ok in Hstep as ([[row col] pos2] & Hdraw & Hstep).
    apply bind_Ok in Hstep as (d2 & Hset & Hstep).
    injection Hstep as -> ->.
    apply draw_empty_slot_Ok, deck_get_Ok in Hdraw as [_ Hzero].
    apply deck_set_Ok in Hset as (_ & _ & ->).
    replace (k + S n)%nat with (S k + n)%nat by lia.
    apply (IH (S k) (<[Z.to_nat (13 * row + col):=1 + Z.of_nat k]> d) pos1 d' pos').
    + rewrite seqZ_S, <- app_assoc. simpl.
      apply fill_slot_perm; [done|]. exact Hd.
    + replace (1 + Z.of_nat (S k)) with (Z.succ (1 + Z.of_nat k)) by lia.
      replace (Z.of_nat n) with (Z.pred (Z.of_nat (S n))) by lia. exact Hrest.
Qed.

Lemma shuffleDeck_valid (fuel : nat) (rnd : rand_source) (pos : nat) (d : deck)
    (d' : deck) (pos' : nat) :
  length d = 52%nat →
  shuffleDeck fuel rnd pos d = Ok (d', pos') → valid_deck d'.
Proof.
  intros Hlen Hrun. unfold shuffleDeck in Hrun.
  apply bind_Ok in Hrun as (d0 & Hclear & Hrun).
  rewrite (clear_deck_zero d Hlen) in Hclear. injection Hclear as <-.
  apply (place_orders_perm fuel rnd 52 0 0 (replicate 52 0) pos d' pos');
    [done|exact Hrun].
Qed.

(** ** Valid decks *)

Lemma valid_deck_length (d : deck) : valid_deck d → length d = 52%nat.
Proof. unfold valid_deck. intros H. by rewrite (Permutation_length H). Qed.

Lemma valid_deck_NoDup (d : deck) : valid_deck d → NoDup d.
Proof. unfold valid_deck. intros H. rewrite H. apply NoDup_seqZ. Qed.

Lemma valid_deck_elem (d : deck) (v : Z) : valid_deck d → v ∈ d ↔ 1 ≤ v ≤ 52.
Proof. unfold valid_deck. intros H. rewrite H, elem_of_seqZ. lia. Qed.

(** Every order number sits in a slot of the grid. *)
Lemma valid_deck_find (d : deck) (v : Z) :
  valid_deck d → 1 ≤ v ≤ 52 →
  ∃ p q, (0 ≤ p < 4 ∧ 0 ≤ q < 13) ∧ deck_get d p q = Ok v.
Proof.
  intros Hd Hv. apply (valid_deck_elem d v Hd) in Hv.
  apply list_elem_of_lookup in Hv as [i Hi].
  destruct (slot_of_offset i) as (p & q & Hpq & Hoff).
  { rewrite <- (valid_deck_length d Hd). apply lookup_lt_is_Some; eauto. }
  exists p, q. split; [done|]. apply deck_get_Ok. by rewrite Hoff.
Qed.

(** ... and in no second one. *)
Lemma valid_deck_unique (d : deck) (v p q p' q' : Z) :
  valid_deck d → deck_get d p q = Ok v → deck_get d p' q' = Ok v →
  p' = p ∧ q' = q.
Proof.
  intros Hd [Hpq H]%deck_get_Ok [Hpq' H']%deck_get_Ok.
  pose proof (NoDup_lookup d _ _ v (valid_deck_NoDup d Hd) H H'). lia.
Qed.

Lemma valid_deck_range (d : deck) (p q v : Z) :
  valid_deck d → deck_get d p q = Ok v → 1 ≤ v ≤ 52.
Proof.
  intros Hd [_ H]%deck_get_Ok. apply (valid_deck_elem d v Hd).
  by apply list_elem_of_lookup_2 in H.
Qed.

(** C1: once shuffleDeck has returned, the 52 slots of the deck hold the
    multiset {1,...,52}: every order number 1..52 is found in exactly one
    slot (suit, face), and every slot holds a number of 1..52. *)
Theorem shuffleDeck_bijection (fuel : nat) (rnd : rand_source) (pos : nat)
    (d d' : deck) (pos' : nat) :
  length d = 52%nat →
  shuffleDeck fuel rnd pos d = Ok (d', pos') →
  d' ≡ₚ seqZ 1 52 ∧
  (∀ v, 1 ≤ v ≤ 52 →
     ∃ p q, (0 ≤ p < 4 ∧ 0 ≤ q < 13) ∧ deck_get d' p q = Ok v ∧
            ∀ p' q', deck_get d' p' q' = Ok v → p' = p ∧ q' = q) ∧
  (∀ p q, 0 ≤ p < 4 → 0 ≤ q < 13 →
     ∃ v, deck_get d' p q = Ok v ∧ 1 ≤ v ≤ 52).
Proof.
  intros Hlen Hrun.
  assert (Hd : valid_deck d') by eauto using shuffleDeck_valid.
  split; [exact Hd|split].
  - intros v Hv. destruct (valid_deck_find d' v Hd Hv) as (p & q & Hpq & Hget).
    exists p, q. split; [done|]. split; [done|].
    intros p' q' Hget'. eapply valid_deck_unique; eauto.
  - intros p q Hp Hq.
    destruct (deck_get_total d' p q (valid_deck_length d' Hd) Hp Hq) as [v Hv].
    exists v. split; [done|]. eauto using valid_deck_range.
Qed.

Lemma shuffleDeck_bijection_witness :
  cycle_deck ≡ₚ seqZ 1 52 ∧
  (∀ v, 1 ≤ v ≤ 52 →
     ∃ p q, (0 ≤ p < 4 ∧ 0 ≤ q < 13) ∧ deck_get cycle_deck p q = Ok v ∧
            ∀ p' q', deck_get cycle_deck p' q' = Ok v → p' = p ∧ q' = q) ∧
  (∀ p q, 0 ≤ p < 4 → 0 ≤ q < 13 →
     ∃ v, deck_get cycle_deck p q = Ok v ∧ 1 ≤ v ≤ 52).
Proof.
  apply (shuffleDeck_bijection 1 cycle_source 0 (replicate 52 7) cycle_deck 104).
  - reflexivity.
  - vm_compute. reflexivity.
Defined.

(** ** shuffleDeck: termination *)

Lemma rem_draw_grid (x y : N) :
  (0 ≤ Z.rem (Z.of_N x) 4 < 4) ∧ (0 ≤ Z.rem (Z.of_N y) 13 < 13).
Proof. split; apply Z.rem_bound_pos; lia. Qed.

Lemma fair_from_later (rnd : rand_source) (pos m : nat) :
  fair_from rnd pos → fair_from rnd (pos + 2 * m).
Proof.
  intros Hfair n r c Hr Hc.
  destruct (Hfair (n + m)%nat r c Hr Hc) as (j & Hj & Hdraw).
  exists (j - m)%nat. split; [lia|]. rewrite <- Hdraw. unfold draw.
  by replace (pos + 2 * m + 2 * (j - m))%nat with (pos + 2 * j)%nat by lia.
Qed.

(** If the [j]-th draw from now is an empty slot, the do-while loop is
    left after at most [j + 1] iterations. *)
Lemma draw_empty_slot_within (rnd : rand_source) (d : deck) (j : nat) :
  length d = 52%nat →
  ∀ pos, (let '(r, c) := draw rnd pos j in deck_get d r c = Ok 0) →
    ∃ row col m,
      ∀ fuel, (S j ≤ fuel)%nat →
        draw_empty_slot fuel rnd pos d = Ok (row, col, (pos + 2 * m)%nat).
Proof.
  intros Hlen. induction j as [|j IH]; intros pos Hhit.
  - unfold draw in Hhit. replace (pos + 2 * 0)%nat with pos in Hhit by lia.
    replace (pos + 1)%nat with (S pos) in Hhit by lia.
    eexists _, _, 1%nat. intros [|fuel] Hfuel; [lia|]. simpl.
    rewrite Hhit. simpl. do 3 f_equal. lia.
  - destruct (rem_draw_grid (rnd pos) (rnd (S pos))) as [Hr Hc].
    destruct (deck_get_total d _ _ Hlen Hr Hc) as [v Hv].
    destruct (Z.eqb_spec v 0) as [->|Hne].
    + eexists _, _, 1%nat. intros [|fuel] Hfuel; [lia|]. simpl.
      rewrite Hv. simpl. do 3 f_equal. lia.
    + destruct (IH (S (S pos))) as (row & col & m & Hrun).
      { unfold draw in *.
        replace (S (S pos) + 2 * j)%nat with (pos + 2 * S j)%nat by lia.
        exact Hhit. }
      exists row, col, (S m). intros [|fuel] Hfuel; [lia|]. simpl.
      rewrite Hv. simpl. destruct (Z.eqb_spec v 0); [done|]. simpl.
      rewrite Hrun by lia. do 2 f_equal. lia.
Qed.

(** The do-while loop terminates on a fair source as long as a slot is
    empty. *)
Lemma draw_empty_slot_terminates (rnd : rand_source) (pos : nat) (d : deck) :
  length d = 52%nat → fair_from rnd pos → 0 ∈ d →
  ∃ fuel0 row col m,
    ∀ fuel, (fuel0 ≤ fuel)%nat →
      draw_empty_slot fuel rnd pos d = Ok (row, col, (pos + 2 * m)%nat).
Proof.
  intros Hlen Hfair Hzero.
  apply list_elem_of_lookup in Hzero as [i Hi].
  destruct (slot_of_offset i) as (p & q & [Hp Hq] & Hoff).
  { rewrite <- Hlen. apply lookup_lt_is_Some; eauto. }
  destruct (Hfair 0%nat p q Hp Hq) as (j & _ & Hdraw).
  destruct (draw_empty_slot_within rnd d j Hlen pos) as (row & col & m & Hrun).
  { rewrite Hdraw. apply deck_get_Ok. by rewrite Hoff. }
  by exists (S j), row, col, m.
Qed.

Lemma place_orders_terminates (rnd : rand_source) (n m : nat) :
  ∀ (k : nat) (d : deck) (pos : nat),
    length d = 52%nat → fair_from rnd pos →
    d ≡ₚ seqZ 1 (Z.of_nat k) ++ replicate (n + m) 0 →
    ∃ fuel0 d' pos',
      ∀ fuel, (fuel0 ≤ fuel)%nat →
        place_orders fuel rnd (seqZ (1 + Z.of_nat k) (Z.of_nat n)) (d, pos)
          = Ok (d', pos').
Proof.
  unfold place_orders.
  induction n as [|n IH]; intros k d pos Hlen Hfair Hd.
  - exists 0%nat, d, pos. done.
  - destruct (draw_empty_slot_terminates rnd pos d Hlen Hfair)
      as (f1 & row & col & j & Hdraw).
    { rewrite Hd. apply elem_of_app. right. simpl. left. }
    pose proof (Hdraw f1 (Nat.le_refl _)) as Hslot.
    apply draw_empty_slot_Ok, deck_get_Ok in Hslot as [Hgrid Hzero].
    set (d1 := <[Z.to_nat (13 * row + col) := 1 + Z.of_nat k]> d).
    destruct (IH (S k) d1 (pos + 2 * j)%nat) as (f2 & d' & pos' & Hrest).
    { unfold d1. by rewrite length_insert. }
    { by apply fair_from_later. }
    { rewrite seqZ_S, <- app_assoc. simpl. by apply fill_slot_perm. }
    exists (f1 `max` f2)%nat, d', pos'. intros fuel Hfuel.
    rewrite seqZ_cons by lia. simpl.
    rewrite Hdraw by lia. simpl.
    assert (Hset : deck_set d row col (1 + Z.of_nat k) = Ok d1).
    { apply deck_set_Ok. split; [done|]. split; [|done].
      apply lookup_lt_Some in Hzero. lia. }
    rewrite Hset. simpl.
    replace (Z.succ (1 + Z.of_nat k)) with (1 + Z.of_nat (S k)) by lia.
    replace (Z.pred (Z.of_nat (S n))) with (Z.of_nat n) by lia.
    apply Hrest. lia.
Qed.

Lemma cycle_source_draw (j : nat) :
  draw cycle_source 0 j = (Z.of_nat j `mod` 4, Z.of_nat j `mod` 13).
Proof.
  unfold draw, cycle_source.
  replace ((0 + 2 * j) / 2)%nat with j by (apply Nat.div_unique with 0%nat; lia).
  replace ((0 + 2 * j + 1) / 2)%nat with j by (apply Nat.div_unique with 1%nat; lia).
  rewrite !Z.rem_mod_nonneg by lia.
  rewrite nat_N_Z, Nat2Z.inj_mod. simpl Z.of_nat.
  f_equal; Z.div_mod_to_equations; lia.
Qed.

Lemma cycle_source_fair : fair_from cycle_source 0.
Proof.
  intros n r c Hr Hc.
  exists (Z.to_nat ((13 * r + 40 * c) `mod` 52) + 52 * n)%nat.
  split; [lia|]. rewrite cycle_source_draw.
  f_equal; Z.div_mod_to_equations; lia.
Qed.

(** C8: on a fair random source (one that, from any point on, eventually
    yields every (row, col) pair) each of the 52 do-while loops is left
    after finitely many iterations, so shuffleDeck terminates: some bound
    on the iterations is never reached, and any larger bound gives the
    same result. *)
Theorem shuffleDeck_terminates (rnd : rand_source) (pos : nat) (d : deck) :
  length d = 52%nat → fair_from rnd pos →
  ∃ fuel0 d' pos',
    ∀ fuel, (fuel0 ≤ fuel)%nat → shuffleDeck fuel rnd pos d = Ok (d', pos').
Proof.
  intros Hlen Hfair.
  destruct (place_orders_terminates rnd 52 0 0 (replicate 52 0) pos)
    as (fuel0 & d' & pos' & Hrun); [done|done|done|].
  exists fuel0, d', pos'. intros fuel Hfuel. unfold shuffleDeck.
  rewrite (clear_deck_zero d Hlen). apply (Hrun fuel Hfuel).
Qed.

Lemma shuffleDeck_terminates_witness :
  ∃ fuel0 d' pos',
    ∀ fuel, (fuel0 ≤ fuel)%nat →
      shuffleDeck fuel cycle_source 0 (replicate 52 7) = Ok (d', pos').
Proof.
  apply (shuffleDeck_terminates cycle_source 0 (replicate 52 7)).
  - reflexivity.
  - exact cycle_source_fair.
Defined.

(** ** Integers that stay in range *)

Lemma wrap_small (x : Z) : -2147483648 ≤ x < 2147483648 → wrap x = x.
Proof. intros H. unfold wrap. Z.div_mod_to_equations. lia. Qed.

Lemma rank_of_face (q : Z) :
  0 ≤ q ≤ 12 →
  rankValueFromFaceIndex q = (if decide (q = 0) then 14 else q + 1) ∧
  2 ≤ rankValueFromFaceIndex q ≤ 14.
Proof.
  intros Hq. unfold rankValueFromFaceIndex, int_add.
  destruct (Z.eqb_spec q 0) as [->|Hne]; [by split|].
  rewrite wrap_small by lia. rewrite decide_False by done. lia.
Qed.

(** ** Counting tables *)

Lemma length_count_table (n : Z) (l : list Z) :
  length (count_table n l) = Z.to_nat n.
Proof. unfold count_table. by rewrite length_fmap, length_seqZ. Qed.

Lemma lookup_count_table (n : Z) (l : list Z) (i : nat) :
  Z.of_nat i < n →
  count_table n l !! i = Some (Z.of_nat (length (filter (λ x, x = Z.of_nat i) l))).
Proof.
  intros Hi. unfold count_table.
  rewrite list_lookup_fmap, lookup_seqZ_lt by done. done.
Qed.

(** Incrementing the entry of [r] counts one more card [r]. *)
Lemma incr_count_table (n : Z) (l : list Z) (r : Z) :
  0 ≤ r < n → Z.of_nat (length l) < 2147483647 →
  incr (count_table n l) r = Ok (count_table n (l ++ [r])).
Proof.
  intros Hr Hl. unfold incr.
  assert (Hlk := lookup_count_table n l (Z.to_nat r)).
  rewrite Z2Nat.id in Hlk by lia. specialize (Hlk ltac:(lia)).
  assert (Hload : load (count_table n l) r
                  = Ok (Z.of_nat (length (filter (λ x, x = r) l)))).
  { apply load_Ok. split; [lia|done]. }
  rewrite Hload. simpl.
  rewrite store_in_range by (rewrite length_count_table; lia).
  f_equal. apply list_eq. intros i.
  destruct (decide (Z.of_nat i < n)) as [Hi|Hi].
  - rewrite (lookup_count_table n (l ++ [r]) i Hi), filter_app, length_app.
    destruct (decide (i = Z.to_nat r)) as [->|Hne].
    + rewrite list_lookup_insert_eq by (rewrite length_count_table; lia).
      rewrite Z2Nat.id by lia. rewrite filter_cons_True by done. simpl.
      unfold int_add. rewrite wrap_small; [f_equal; lia|].
      pose proof (length_filter (λ x, x = r) l). lia.
    + rewrite list_lookup_insert_ne by done.
      rewrite (lookup_count_table n l i Hi).
      rewrite filter_cons_False by lia. simpl. f_equal. lia.
  - rewrite !lookup_ge_None_2; [done| |].
    + rewrite length_count_table. lia.
    + rewrite length_insert, length_count_table. lia.
Qed.

Lemma sum_rank_table (l : list Z) :
  Forall (λ r, 2 ≤ r ≤ 14) l →
  table_sum (rank_table l) 2 13 = Z.of_nat (length l).
Proof.
  unfold table_sum, rank_table, count_table.
  let idx := eval vm_compute in (seqZ 0 15) in change (seqZ 0 15) with idx.
  induction 1 as [|r l Hr _ IH]; [reflexivity|].
  cbn [fmap list_fmap drop take sum_list foldr] in IH |- *. rewrite !filter_cons.
  assert (Hcases : r = 2 ∨ r = 3 ∨ r = 4 ∨ r = 5 ∨ r = 6 ∨ r = 7 ∨ r = 8 ∨
                   r = 9 ∨ r = 10 ∨ r = 11 ∨ r = 12 ∨ r = 13 ∨ r = 14) by lia.
  repeat (destruct Hcases as [->|Hcases]); try subst r;
    repeat (case_decide; [try lia|try lia]); simpl length; lia.
Qed.

Lemma sum_suit_table (l : list Z) :
  Forall (λ s, 0 ≤ s ≤ 3) l →
  table_sum (suit_table l) 0 4 = Z.of_nat (length l).
Proof.
  unfold table_sum, suit_table, count_table.
  let idx := eval vm_compute in (seqZ 0 4) in change (seqZ 0 4) with idx.
  induction 1 as [|r l Hr _ IH]; [reflexivity|].
  cbn [fmap list_fmap drop take sum_list foldr] in IH |- *. rewrite !filter_cons.
  assert (Hcases : r = 0 ∨ r = 1 ∨ r = 2 ∨ r = 3) by lia.
  repeat (destruct Hcases as [->|Hcases]); try subst r;
    repeat (case_decide; [try lia|try lia]); simpl length; lia.
Qed.

(** ** Recording one card *)

Lemma store_next (done_ : list Z) (a : list Z) (v : Z) :
  (length done_ < length a)%nat →
  store (done_ ++ drop (length done_) a) (Z.of_nat (length done_)) v
  = Ok ((done_ ++ [v]) ++ drop (S (length done_)) a).
Proof.
  intros Hlt.
  destruct (lookup_lt_is_Some_2 a (length done_) Hlt) as [x Hx].
  rewrite store_in_range.
  - f_equal. rewrite Nat2Z.id, insert_app_r_alt by lia.
    rewrite Nat.sub_diag, (drop_S a x _ Hx), <- app_assoc. done.
  - rewrite length_app, length_drop. lia.
Qed.

Lemma record_card_next (cs : list (Z * Z)) (hs0 hr0 : list Z) (p q : Z) :
  length hs0 = 5%nat → length hr0 = 5%nat → (length cs < 5)%nat →
  0 ≤ p < 4 → 0 ≤ q < 13 →
  record_card (Z.of_nat (length cs)) p q (hand_of cs hs0 hr0)
  = Ok (hand_of (cs ++ [(p, q)]) hs0 hr0).
Proof.
  intros Hhs Hhr Hcs Hp Hq.
  destruct (rank_of_face q) as [_ Hrank]; [lia|].
  unfold record_card, hand_of, rank_table, suit_table. simpl.
  assert (Hls : length (card_suits cs) = length cs)
    by (unfold card_suits; by rewrite length_fmap).
  assert (Hlr : length (card_ranks cs) = length cs)
    by (unfold card_ranks; by rewrite length_fmap).
  rewrite <- Hls at 1 2. rewrite store_next by lia. simpl.
  rewrite <- Hlr at 1 2. rewrite store_next by lia. simpl.
  rewrite incr_count_table by lia. simpl.
  rewrite incr_count_table by lia. simpl.
  rewrite Hls, Hlr, length_app. simpl.
  replace (length cs + 1)%nat with (S (length cs)) by lia.
  unfold card_suits, card_ranks. by rewrite !fmap_app.
Qed.

(** Recording a card never fails on arrays of the declared sizes, keeps
    the sizes, and leaves the other positions of the hand alone. *)
Lemma record_card_total (k p q : Z) (h : hand) :
  declared h → 0 ≤ k < 5 → 0 ≤ p < 4 → 0 ≤ q < 13 →
  ∃ h', record_card k p q h = Ok h' ∧ declared h' ∧
        (∀ j : nat, Z.of_nat j ≠ k →
           handSuite h' !! j = handSuite h !! j ∧
           handRank h' !! j = handRank h !! j).
Proof.
  intros (Hhs & Hhr & Hrc & Hsc) Hk Hp Hq.
  destruct (rank_of_face q) as [_ Hrank]; [lia|].
  unfold record_card, incr.
  rewrite !store_in_range by lia. simpl.
  destruct (load_in_range (rankCount h) (rankValueFromFaceIndex q)) as (v & -> & _); [lia|].
  simpl. rewrite store_in_range by lia. simpl.
  destruct (load_in_range (suitCount h) p) as (w & -> & _); [lia|].
  simpl. rewrite store_in_range by lia. simpl.
  eexists. split; [done|]. split.
  - unfold declared. simpl. by rewrite !length_insert.
  - intros j Hj. simpl. rewrite !list_lookup_insert_ne by lia. done.
Qed.

(** ** Scanning the deck for an order number *)

Lemma elem_of_seqZ_0 (n i : Z) : i ∈ seqZ 0 n ↔ 0 ≤ i < n.
Proof. rewrite elem_of_seqZ. lia. Qed.

(** On a valid deck the scan records exactly the one card that holds the
    wanted order number. *)
Lemma scan_deck_hit (d : deck) (v k p0 q0 : Z) (h h' : hand) :
  valid_deck d → deck_get d p0 q0 = Ok v →
  record_card k p0 q0 h = Ok h' →
  scan_deck d v k h = Ok h'.
Proof.
  intros Hd Hget Hrec. unfold scan_deck.
  pose proof (valid_deck_length d Hd) as Hlen.
  pose proof Hget as [[Hp0 Hq0] _]%deck_get_Ok.
  apply (for_each_single _ _ p0).
  - apply NoDup_seqZ.
  - by apply elem_of_seqZ_0.
  - intros p t Hp%elem_of_seqZ_0 Hne. apply for_each_skip.
    intros q Hq%elem_of_seqZ_0.
    destruct (deck_get_total d p q Hlen Hp Hq) as [w Hw]. rewrite Hw. simpl.
    destruct (Z.eqb_spec w v) as [->|]; [|done].
    destruct (valid_deck_unique d v p0 q0 p q Hd Hget Hw). done.
  - apply (for_each_single _ _ q0).
    + apply NoDup_seqZ.
    + by apply elem_of_seqZ_0.
    + intros q t Hq%elem_of_seqZ_0 Hne.
      destruct (deck_get_total d p0 q Hlen Hp0 Hq) as [w Hw]. rewrite Hw. simpl.
      destruct (Z.eqb_spec w v) as [->|]; [|done].
      destruct (valid_deck_unique d v p0 q0 p0 q Hd Hget Hw). done.
    + rewrite Hget. simpl. by rewrite Z.eqb_refl.
Qed.

(** An order number held by no slot makes the scan write nothing. *)
Lemma scan_deck_miss (d : deck) (v k : Z) (h : hand) :
  length d = 52%nat → v ∉ d → scan_deck d v k h = Ok h.
Proof.
  intros Hlen Hv. unfold scan_deck.
  apply for_each_skip. intros p Hp%elem_of_seqZ_0.
  apply for_each_skip. intros q Hq%elem_of_seqZ_0.
  destruct (deck_get_total d p q Hlen Hp Hq) as [w Hw]. rewrite Hw. simpl.
  destruct (Z.eqb_spec w v) as [->|]; [|done].
  apply deck_get_Ok in Hw as [_ Hw]. by apply list_elem_of_lookup_2 in Hw.
Qed.

(** Whatever the deck holds, the scan completes on arrays of the declared
    sizes and touches no position of the hand but [k]. *)
Lemma scan_deck_total (d : deck) (v k : Z) (h : hand) :
  length d = 52%nat → declared h → 0 ≤ k < 5 →
  ∃ h', scan_deck d v k h = Ok h' ∧ declared h' ∧
        (∀ j : nat, Z.of_nat j ≠ k →
           handSuite h' !! j = handSuite h !! j ∧
           handRank h' !! j = handRank h !! j).
Proof.
  intros Hlen Hdecl Hk. unfold scan_deck.
  set (P := λ t : hand, declared t ∧
        ∀ j : nat, Z.of_nat j ≠ k →
           handSuite t !! j = handSuite h !! j ∧
           handRank t !! j = handRank h !! j).
  apply (for_each_invariant P); [|by split].
  intros p t Hp%elem_of_seqZ_0 Ht.
  apply (for_each_invariant P); [|done].
  intros q u Hq%elem_of_seqZ_0 [Hu Hframe].
  destruct (deck_get_total d p q Hlen Hp Hq) as [w Hw]. rewrite Hw. simpl.
  destruct (w =? v).
  - destruct (record_card_total k p q u Hu Hk Hp Hq) as (u' & Hrec & Hu' & Hfr).
    exists u'. split; [done|]. split; [done|].
    intros j Hj. destruct (Hfr j Hj) as [-> ->]. by apply Hframe.
  - exists u. split; [done|]. by split.
Qed.

(** ** Dealing from a valid deck *)

Lemma clearCountArrays_zero (rc sc : list Z) :
  length rc = 15%nat → length sc = 4%nat →
  clearCountArrays rc sc = Ok (replicate 15 0, replicate 4 0).
Proof.
  intros Hrc Hsc.
  do 15 (destruct rc as [|? rc]; [discriminate Hrc|]).
  destruct rc; [|discriminate Hrc].
  do 4 (destruct sc as [|? sc]; [discriminate Hsc|]).
  destruct sc; [|discriminate Hsc].
  reflexivity.
Qed.

Lemma dealt_grid (d : deck) (start : Z) (cs : list (Z * Z)) :
  dealt d start cs → Forall (λ c, (0 ≤ c.1 < 4) ∧ (0 ≤ c.2 < 13)) cs.
Proof.
  intros Hcs. apply Forall_lookup. intros k [p q] Hk.
  apply Hcs, deck_get_Ok in Hk as [Hpq _]. exact Hpq.
Qed.

Lemma dealt_snoc (d : deck) (start : Z) (cs : list (Z * Z)) (p q : Z) :
  dealt d start cs → deck_get d p q = Ok (start + Z.of_nat (length cs)) →
  dealt d start (cs ++ [(p, q)]).
Proof.
  intros Hcs Hget k p' q' Hk.
  apply lookup_app_Some in Hk as [Hk|[Hge Hk]]; [by apply Hcs|].
  apply list_lookup_singleton_Some in Hk as [Hk0 [= <- <-]].
  replace k with (length cs) by lia. exact Hget.
Qed.

(** The remaining iterations of the dealing loop, once the cards [cs]
    are in the hand. *)
Lemma deal_remaining (d : deck) (start : Z) (hs0 hr0 : list Z) :
  valid_deck d → 1 ≤ start ≤ 48 → length hs0 = 5%nat → length hr0 = 5%nat →
  ∀ (n : nat) (cs : list (Z * Z)),
    (length cs + n = 5)%nat → dealt d start cs →
    ∃ cs', length cs' = n ∧ dealt d start (cs ++ cs') ∧
      for_each (seqZ (Z.of_nat (length cs)) (Z.of_nat n))
        (λ dealIdx h, scan_deck d (int_add start dealIdx) dealIdx h)
        (hand_of cs hs0 hr0)
      = Ok (hand_of (cs ++ cs') hs0 hr0).
Proof.
  intros Hd Hstart Hhs Hhr. induction n as [|n IH]; intros cs Hlen Hcs.
  - exists []. rewrite app_nil_r. by repeat split.
  - destruct (valid_deck_find d (start + Z.of_nat (length cs)) Hd)
      as (p & q & [Hp Hq] & Hget); [lia|].
    destruct (IH (cs ++ [(p, q)])) as (cs' & Hlen' & Hcs' & Hrun).
    { rewrite length_app. simpl. lia. }
    { by apply dealt_snoc. }
    exists ((p, q) :: cs'). rewrite <- app_assoc in Hcs', Hrun. simpl in Hcs', Hrun.
    split; [simpl; lia|]. split; [done|].
    rewrite seqZ_cons by lia. simpl.
    replace (int_add start (Z.of_nat (length cs))) with (start + Z.of_nat (length cs))
      by (unfold int_add; rewrite wrap_small; lia).
    rewrite (scan_deck_hit d _ _ p q _ _ Hd Hget
               (record_card_next cs hs0 hr0 p q Hhs Hhr ltac:(lia) Hp Hq)).
    simpl. rewrite <- Hrun. rewrite length_app. simpl.
    do 2 f_equal; lia.
Qed.

(** After [clearCountArrays], dealing from a valid deck fills the hand
    with the five cards of order [start .. start + 4] and the tables with their
    counts. *)
Lemma deal_fresh_hand_cards (d : deck) (start : Z) (h : hand) :
  valid_deck d → 1 ≤ start ≤ 48 → declared h →
  ∃ cs, length cs = 5%nat ∧ dealt d start cs ∧
    deal_fresh_hand d start h
    = Ok (Hand (card_suits cs) (card_ranks cs)
               (rank_table (card_ranks cs)) (suit_table (card_suits cs))).
Proof.
  intros Hd Hstart (Hhs & Hhr & Hrc & Hsc).
  destruct (deal_remaining d start (handSuite h) (handRank h) Hd Hstart Hhs Hhr 5 [])
    as (cs & Hlen & Hcs & Hrun); [done|by intros k p q H|].
  exists cs. split; [done|]. split; [done|].
  unfold deal_fresh_hand. rewrite (clearCountArrays_zero _ _ Hrc Hsc). simpl.
  unfold dealFiveCardHandFromOrderRange.
  simpl in Hrun. etrans; [exact Hrun|].
  unfold hand_of. rewrite Hlen, !drop_ge, !app_nil_r by lia. done.
Qed.

Lemma cycle_deck_valid : valid_deck cycle_deck.
Proof.
  apply (shuffleDeck_valid 1 cycle_source 0 (replicate 52 7) cycle_deck 104).
  - reflexivity.
  - vm_compute. reflexivity.
Qed.

Lemma card_ranks_range (d : deck) (start : Z) (cs : list (Z * Z)) :
  dealt d start cs → Forall (λ r, 2 ≤ r ≤ 14) (card_ranks cs).
Proof.
  intros Hcs%dealt_grid. unfold card_ranks. apply Forall_fmap.
  eapply Forall_impl; [exact Hcs|]. intros [p q] [_ Hq]. simpl in *.
  apply rank_of_face. lia.
Qed.

Lemma card_suits_range (d : deck) (start : Z) (cs : list (Z * Z)) :
  dealt d start cs → Forall (λ s, 0 ≤ s ≤ 3) (card_suits cs).
Proof.
  intros Hcs%dealt_grid. unfold card_suits. apply Forall_fmap.
  eapply Forall_impl; [exact Hcs|]. intros [p q] [Hp _]. simpl in *. lia.
Qed.

(** C4: for a deck satisfying the bijection invariant and a start order
    between 1 and 48, clearing the count arrays and dealing leaves a rank
    table whose entries 2..14 sum to 5 and a suit table whose entries
    0..3 sum to 5. *)
Theorem deal_counts_sum_to_five (d : deck) (start : Z) (h : hand) :
  valid_deck d → 1 ≤ start ≤ 48 → declared h →
  ∃ h', deal_fresh_hand d start h = Ok h' ∧
        table_sum (rankCount h') 2 13 = 5 ∧
        table_sum (suitCount h') 0 4 = 5.
Proof.
  intros Hd Hstart Hh.
  destruct (deal_fresh_hand_cards d start h Hd Hstart Hh) as (cs & Hlen & Hcs & Hrun).
  eexists. split; [exact Hrun|]. simpl. split.
  - rewrite (sum_rank_table _ (card_ranks_range d start cs Hcs)).
    unfold card_ranks. rewrite length_fmap, Hlen. done.
  - rewrite (sum_suit_table _ (card_suits_range d start cs Hcs)).
    unfold card_suits. rewrite length_fmap, Hlen. done.
Qed.

Lemma deal_counts_sum_to_five_witness :
  ∃ h', deal_fresh_hand cycle_deck 6
          (Hand [9; 9; 9; 9; 9] [9; 9; 9; 9; 9] (replicate 15 9) (replicate 4 9))
        = Ok h' ∧
        table_sum (rankCount h') 2 13 = 5 ∧
        table_sum (suitCount h') 0 4 = 5.
Proof.
  apply deal_counts_sum_to_five.
  - exact cycle_deck_valid.
  - lia.
  - repeat split.
Defined.

(** C5 (amended): for a deck satisfying the bijection invariant and a
    start order between 1 and 48, clearCountArrays followed by
    dealFiveCardHandFromOrderRange, as main runs them, returns whatever
    the output arrays held before: position k of the hand arrays holds
    the suit and the derived rank of the slot whose order value is
    start + k, and the two tables hold the number of occurrences of each
    rank and of each suit among these five cards. *)
Theorem deal_fresh_hand_emits (d : deck) (start : Z) (h : hand) :
  valid_deck d → 1 ≤ start ≤ 48 → declared h →
  ∃ h', deal_fresh_hand d start h = Ok h' ∧
    length (handSuite h') = 5%nat ∧ length (handRank h') = 5%nat ∧
    (∀ k : nat, (k < 5)%nat →
       ∃ p q, deck_get d p q = Ok (start + Z.of_nat k) ∧
              handSuite h' !! k = Some p ∧
              handRank h' !! k = Some (rankValueFromFaceIndex q)) ∧
    rankCount h' = rank_table (handRank h') ∧
    suitCount h' = suit_table (handSuite h').
Proof.
  intros Hd Hstart Hh.
  destruct (deal_fresh_hand_cards d start h Hd Hstart Hh) as (cs & Hlen & Hcs & Hrun).
  eexists. split; [exact Hrun|]. simpl.
  unfold card_suits, card_ranks. rewrite !length_fmap.
  repeat split; try done.
  intros k Hk. destruct (lookup_lt_is_Some_2 cs k) as [[p q] Hpq]; [lia|].
  exists p, q. rewrite !list_lookup_fmap, Hpq. split; [|done]. by apply Hcs.
Qed.

Lemma deal_fresh_hand_emits_witness :
  ∃ h', deal_fresh_hand cycle_deck 1
          (Hand [9; 9; 9; 9; 9] [9; 9; 9; 9; 9] (replicate 15 9) (replicate 4 9))
        = Ok h' ∧
    length (handSuite h') = 5%nat ∧ length (handRank h') = 5%nat ∧
    (∀ k : nat, (k < 5)%nat →
       ∃ p q, deck_get cycle_deck p q = Ok (1 + Z.of_nat k) ∧
              handSuite h' !! k = Some p ∧
              handRank h' !! k = Some (rankValueFromFaceIndex q)) ∧
    rankCount h' = rank_table (handRank h') ∧
    suitCount h' = suit_table (handSuite h').
Proof.
  apply deal_fresh_hand_emits.
  - exact cycle_deck_valid.
  - lia.
  - repeat split.
Defined.

(** C5 as stated fails: dealFiveCardHandFromOrderRange adds to the tables
    it is given, so tables that are not zero on entry do not end up as
    the counts of the hand; and from start order 50 on a valid deck only
    three cards exist, positions 3 and 4 of the hand keep what they held. *)
Lemma deal_dirty_tables_counterexample :
  ¬ (∀ (d : deck) (start : Z) (h h' : hand),
       valid_deck d → declared h →
       dealFiveCardHandFromOrderRange d start h = Ok h' →
       (∀ k : nat, (k < 5)%nat →
          ∃ p q, deck_get d p q = Ok (start + Z.of_nat k) ∧
                 handSuite h' !! k = Some p ∧
                 handRank h' !! k = Some (rankValueFromFaceIndex q)) ∧
       rankCount h' = rank_table (handRank h') ∧
       suitCount h' = suit_table (handSuite h')) ∧
  dealFiveCardHandFromOrderRange cycle_deck 1
    (Hand [9; 9; 9; 9; 9] [9; 9; 9; 9; 9] (replicate 15 7) (replicate 4 7))
  = Ok (Hand [0; 1; 2; 3; 0] [14; 2; 3; 4; 5]
             [7; 7; 8; 8; 8; 8; 7; 7; 7; 7; 7; 7; 7; 7; 8] [9; 8; 8; 8]) ∧
  dealFiveCardHandFromOrderRange cycle_deck 50
    (Hand [9; 9; 9; 9; 9] [9; 9; 9; 9; 9] (replicate 15 0) (replicate 4 0))
  = Ok (Hand [1; 2; 3; 9; 9] [11; 12; 13; 9; 9]
             [0; 0; 0; 0; 0; 0; 0; 0; 0; 0; 0; 1; 1; 1; 0] [0; 1; 1; 1]).
Proof.
  assert (Hrun : dealFiveCardHandFromOrderRange cycle_deck 1
    (Hand [9; 9; 9; 9; 9] [9; 9; 9; 9; 9] (replicate 15 7) (replicate 4 7))
  = Ok (Hand [0; 1; 2; 3; 0] [14; 2; 3; 4; 5]
             [7; 7; 8; 8; 8; 8; 7; 7; 7; 7; 7; 7; 7; 7; 8] [9; 8; 8; 8]))
    by (vm_compute; reflexivity).
  split; [|split; [exact Hrun|vm_compute; reflexivity]].
  intros Hclaim.
  apply Hclaim in Hrun as (_ & Hrc & _);
    [|exact cycle_deck_valid|repeat split].
  vm_compute in Hrc. discriminate Hrc.
Qed.

(** ** The table indices stay in range *)

Lemma for_each_ext {S : Type} (idx : list Z) (f g : Z → S → outcome S) (s : S) :
  (∀ i t, i ∈ idx → f i t = g i t) → for_each idx f s = for_each idx g s.
Proof.
  revert s. induction idx as [|i idx IH]; intros s Hfg; simpl; [done|].
  rewrite Hfg by left. destruct (g i s) as [s'| |]; simpl; [|done|done].
  apply IH. intros j t Hj. apply Hfg. by right.
Qed.

Lemma incr_checked_in_range (lo hi : Z) (a : list Z) (i : Z) :
  lo ≤ i ≤ hi → incr_checked lo hi a i = incr a i.
Proof.
  intros Hi. unfold incr_checked.
  destruct (Z.leb_spec lo i), (Z.leb_spec i hi); (done || lia).
Qed.

(** The checks of the fail-fast variant never fire: the scan only records
    slots of the grid, whose rank is in 2..14 and whose suit is in 0..3. *)
Lemma record_card_checked_eq (k p q : Z) (h : hand) :
  0 ≤ p < 4 → 0 ≤ q < 13 →
  record_card_checked k p q h = record_card k p q h.
Proof.
  intros Hp Hq. destruct (rank_of_face q) as [_ Hrank]; [lia|].
  unfold record_card_checked, record_card.
  by rewrite !incr_checked_in_range by lia.
Qed.

Lemma scan_deck_checked_eq (d : deck) (v k : Z) (h : hand) :
  scan_deck_checked d v k h = scan_deck d v k h.
Proof.
  unfold scan_deck_checked, scan_deck.
  apply for_each_ext. intros p t Hp%elem_of_seqZ_0.
  apply for_each_ext. intros q u Hq%elem_of_seqZ_0.
  by rewrite record_card_checked_eq.
Qed.

Lemma deal_checked_eq (d : deck) (start : Z) (h : hand) :
  deal_checked d start h = dealFiveCardHandFromOrderRange d start h.
Proof.
  unfold deal_checked, dealFiveCardHandFromOrderRange.
  apply for_each_ext. intros k t _. apply scan_deck_checked_eq.
Qed.

(** Dealing completes for every deck of 52 slots and every start order. *)
Lemma deal_total (d : deck) (start : Z) (h : hand) :
  length d = 52%nat → declared h →
  ∃ h', dealFiveCardHandFromOrderRange d start h = Ok h' ∧ declared h'.
Proof.
  intros Hlen Hh. unfold dealFiveCardHandFromOrderRange.
  apply (for_each_invariant declared); [|done].
  intros k t Hk%elem_of_seqZ_0 Ht.
  destruct (scan_deck_total d (int_add start k) k t Hlen Ht Hk) as (t' & Hrun & Ht' & _).
  by exists t'.
Qed.

(** Recording a card writes neither entry 0 nor entry 1 of the rank
    table. *)
Lemma record_card_unused (k p q : Z) (h h' : hand) :
  0 ≤ q < 13 → record_card k p q h = Ok h' →
  rankCount h' !! 0%nat = rankCount h !! 0%nat ∧
  rankCount h' !! 1%nat = rankCount h !! 1%nat.
Proof.
  intros Hq Hrun. destruct (rank_of_face q) as [_ Hrank]; [lia|].
  unfold record_card in Hrun.
  apply bind_Ok in Hrun as (hs & _ & Hrun).
  apply bind_Ok in Hrun as (hr & _ & Hrun).
  apply bind_Ok in Hrun as (rc & Hrc & Hrun).
  apply bind_Ok in Hrun as (sc & _ & Hrun).
  injection Hrun as <-. simpl.
  unfold incr in Hrc. apply bind_Ok in Hrc as (v & _ & Hrc).
  apply store_Ok in Hrc as [_ ->].
  rewrite !list_lookup_insert_ne by lia. done.
Qed.

(** The same of a whole call, whatever the deck holds. *)
Lemma deal_unused (d : deck) (start : Z) (h h' : hand) :
  length d = 52%nat → declared h →
  dealFiveCardHandFromOrderRange d start h = Ok h' →
  declared h' ∧
  rankCount h' !! 0%nat = rankCount h !! 0%nat ∧
  rankCount h' !! 1%nat = rankCount h !! 1%nat.
Proof.
  intros Hlen Hh Hrun.
  set (P := λ t : hand, declared t ∧
        rankCount t !! 0%nat = rankCount h !! 0%nat ∧
        rankCount t !! 1%nat = rankCount h !! 1%nat).
  destruct (for_each_invariant P (seqZ 0 HANDSIZE)
              (λ dealIdx h, scan_deck d (int_add start dealIdx) dealIdx h) h)
    as (h2 & Hrun2 & HP); [|split; [exact Hh|by split]|].
  - intros k t Hk%elem_of_seqZ_0 Ht. unfold scan_deck.
    apply (for_each_invariant P); [|done].
    intros p u Hp%elem_of_seqZ_0 Hu.
    apply (for_each_invariant P); [|done].
    intros q w Hq%elem_of_seqZ_0 (Hw & Hw0 & Hw1).
    destruct (deck_get_total d p q Hlen Hp Hq) as [x ->]. simpl.
    destruct (x =? int_add start k).
    + destruct (record_card_total k p q w Hw Hk Hp Hq) as (w' & Hrec & Hw' & _).
      exists w'. split; [done|]. split; [done|].
      destruct (record_card_unused k p q w w' Hq Hrec) as [-> ->]. by split.
    + exists w. split; [done|]. split; [done|]. by split.
  - unfold dealFiveCardHandFromOrderRange in Hrun.
    rewrite Hrun2 in Hrun. injection Hrun as <-. exact HP.
Qed.

(** C7: rankValueFromFaceIndex maps face index 0 to 14 and 1..12 to
    2..13; hence, for a deck satisfying the bijection invariant, every
    table index the Hand Extractor uses lies in 2..14 for ranks and in
    0..3 for suits.  The call completes without a fault on the arrays of
    15 and 4 entries; it returns the very result of the run in which each
    table update first checks the index it is handed against 2..14 and
    0..3, so that check, the out-of-range error branch, is never taken;
    and entries 0 and 1 of the rank table are as they were before the
    call. *)
Theorem deal_indices_in_range (d : deck) (start : Z) (h : hand) :
  valid_deck d → declared h →
  (∀ q, 0 ≤ q ≤ 12 →
     rankValueFromFaceIndex q = (if decide (q = 0) then 14 else q + 1) ∧
     2 ≤ rankValueFromFaceIndex q ≤ 14) ∧
  ∃ h', dealFiveCardHandFromOrderRange d start h = Ok h' ∧
        deal_checked d start h = Ok h' ∧
        length (rankCount h') = 15%nat ∧ length (suitCount h') = 4%nat ∧
        rankCount h' !! 0%nat = rankCount h !! 0%nat ∧
        rankCount h' !! 1%nat = rankCount h !! 1%nat.
Proof.
  intros Hd Hh. split; [exact rank_of_face|].
  pose proof (valid_deck_length d Hd) as Hlen.
  destruct (deal_total d start h Hlen Hh) as (h' & Hrun & _).
  destruct (deal_unused d start h h' Hlen Hh Hrun)
    as ((_ & _ & Hrc & Hsc) & H0 & H1).
  exists h'. split; [done|]. split; [by rewrite deal_checked_eq|].
  by repeat split.
Qed.

Lemma deal_indices_in_range_witness :
  (∀ q, 0 ≤ q ≤ 12 →
     rankValueFromFaceIndex q = (if decide (q = 0) then 14 else q + 1) ∧
     2 ≤ rankValueFromFaceIndex q ≤ 14) ∧
  ∃ h', dealFiveCardHandFromOrderRange cycle_deck 1
          (Hand [9; 9; 9; 9; 9] [9; 9; 9; 9; 9]
                [7; -3; 0; 0; 0; 0; 0; 0; 0; 0; 0; 0; 0; 0; 0] (replicate 4 0))
        = Ok h' ∧
        deal_checked cycle_deck 1
          (Hand [9; 9; 9; 9; 9] [9; 9; 9; 9; 9]
                [7; -3; 0; 0; 0; 0; 0; 0; 0; 0; 0; 0; 0; 0; 0] (replicate 4 0))
        = Ok h' ∧
        length (rankCount h') = 15%nat ∧ length (suitCount h') = 4%nat ∧
        rankCount h' !! 0%nat
          = [7; -3; 0; 0; 0; 0; 0; 0; 0; 0; 0; 0; 0; 0; 0] !! 0%nat ∧
        rankCount h' !! 1%nat
          = [7; -3; 0; 0; 0; 0; 0; 0; 0; 0; 0; 0; 0; 0; 0] !! 1%nat.
Proof.
  apply (deal_indices_in_range cycle_deck 1
           (Hand [9; 9; 9; 9; 9] [9; 9; 9; 9; 9]
                 [7; -3; 0; 0; 0; 0; 0; 0; 0; 0; 0; 0; 0; 0; 0] (replicate 4 0))).
  - exact cycle_deck_valid.
  - repeat split.
Defined.

Example deal_checked_cycle :
  deal_checked cycle_deck 1
    (Hand [9; 9; 9; 9; 9] [9; 9; 9; 9; 9]
          [7; -3; 0; 0; 0; 0; 0; 0; 0; 0; 0; 0; 0; 0; 0] (replicate 4 0))
  = Ok (Hand [0; 1; 2; 3; 0] [14; 2; 3; 4; 5]
             [7; -3; 1; 1; 1; 1; 0; 0; 0; 0; 0; 0; 0; 0; 1] [2; 1; 1; 1]).
Proof. vm_compute. reflexivity. Qed.

(** ** Order numbers missing from the deck *)

(** C10: whatever the 52 slots of the deck hold, and whatever the start
    order, dealFiveCardHandFromOrderRange completes normally.  For an
    order value of the range that no slot holds, the scan for it writes
    nothing at all (neither hand entry nor count), and the hand entries
    of its position are after the call what they were before it; when no
    order value of the range is in the deck, the whole output is
    unchanged. *)
Theorem deal_missing_order_no_write (d : deck) (start : Z) (h : hand) :
  length d = 52%nat → declared h →
  ∃ h', dealFiveCardHandFromOrderRange d start h = Ok h' ∧
    (∀ k : nat, (k < 5)%nat → int_add start (Z.of_nat k) ∉ d →
       (∀ t, scan_deck d (int_add start (Z.of_nat k)) (Z.of_nat k) t = Ok t) ∧
       handSuite h' !! k = handSuite h !! k ∧
       handRank h' !! k = handRank h !! k) ∧
    ((∀ k : nat, (k < 5)%nat → int_add start (Z.of_nat k) ∉ d) → h' = h).
Proof.
  intros Hlen Hh.
  set (P := λ t : hand, declared t ∧
        ∀ k : nat, (k < 5)%nat → int_add start (Z.of_nat k) ∉ d →
          handSuite t !! k = handSuite h !! k ∧
          handRank t !! k = handRank h !! k).
  destruct (for_each_invariant P (seqZ 0 HANDSIZE)
              (λ dealIdx h, scan_deck d (int_add start dealIdx) dealIdx h) h)
    as (h' & Hrun & _ & Hframe).
  { intros i t Hi%elem_of_seqZ_0 [Ht Hfr].
    destruct (scan_deck_total d (int_add start i) i t Hlen Ht Hi)
      as (t' & Hscan & Ht' & Hother).
    exists t'. split; [done|]. split; [done|].
    intros k Hk Hmiss. destruct (decide (Z.of_nat k = i)) as [<-|Hne].
    - rewrite (scan_deck_miss d _ _ t Hlen Hmiss) in Hscan.
      injection Hscan as <-. by apply Hfr.
    - destruct (Hother k Hne) as [-> ->]. by apply Hfr. }
  { by split. }
  exists h'. split; [exact Hrun|]. split.
  - intros k Hk Hmiss. split; [|by apply Hframe].
    intros t. by apply scan_deck_miss.
  - intros Hall. unfold dealFiveCardHandFromOrderRange in Hrun.
    rewrite for_each_skip in Hrun; [by injection Hrun|].
    intros i Hi%elem_of_seqZ_0. unfold HANDSIZE in Hi.
    replace i with (Z.of_nat (Z.to_nat i)) by lia.
    apply scan_deck_miss; [done|]. apply Hall. lia.
Qed.

Lemma deal_missing_order_no_write_witness :
  ∃ h', dealFiveCardHandFromOrderRange cycle_deck 50
          (Hand [9; 9; 9; 9; 9] [8; 8; 8; 8; 8] (replicate 15 7) (replicate 4 7))
        = Ok h' ∧
    (∀ k : nat, (k < 5)%nat → int_add 50 (Z.of_nat k) ∉ cycle_deck →
       (∀ t, scan_deck cycle_deck (int_add 50 (Z.of_nat k)) (Z.of_nat k) t = Ok t) ∧
       handSuite h' !! k = [9; 9; 9; 9; 9] !! k ∧
       handRank h' !! k = [8; 8; 8; 8; 8] !! k) ∧
    ((∀ k : nat, (k < 5)%nat → int_add 50 (Z.of_nat k) ∉ cycle_deck) →
     h' = Hand [9; 9; 9; 9; 9] [8; 8; 8; 8; 8] (replicate 15 7) (replicate 4 7)).
Proof.
  apply (deal_missing_order_no_write cycle_deck 50
           (Hand [9; 9; 9; 9; 9] [8; 8; 8; 8; 8] (replicate 15 7) (replicate 4 7))).
  - reflexivity.
  - repeat split.
Defined.

(** ** Counting ranks *)

Lemma load_entry (a : list Z) (r : Z) :
  0 ≤ r < Z.of_nat (length a) → load a r = Ok (entry a r).
Proof.
  intros Hr. destruct (load_in_range a r Hr) as (v & -> & Hv).
  unfold entry. by rewrite Hv.
Qed.

Lemma count_loop (rc : list Z) (N : Z) (idx : list Z) (c : Z) :
  Forall (λ r, 0 ≤ r < Z.of_nat (length rc)) idx →
  0 ≤ c → c + Z.of_nat (length idx) < 2147483648 →
  for_each idx (λ r count,
    v ← load rc r;
    if v =? N then Ok (int_add count 1) else Ok count) c
  = Ok (c + Z.of_nat (length (filter (λ r, entry rc r = N) idx))).
Proof.
  intros Hidx. revert c. induction Hidx as [|r idx Hr _ IH]; intros c Hc Hbound.
  - simpl. f_equal. lia.
  - simpl in Hbound |- *. rewrite (load_entry rc r Hr). simpl.
    destruct (Z.eqb_spec (entry rc r) N) as [He|He].
    + simpl. unfold int_add. rewrite wrap_small by lia.
      rewrite IH by lia. rewrite filter_cons_True by done. simpl. f_equal. lia.
    + simpl. rewrite IH by lia. by rewrite filter_cons_False.
Qed.

Lemma countRanksWithFrequency_spec (rc : list Z) (N : Z) :
  length rc = 15%nat →
  countRanksWithFrequency rc N = Ok (Z.of_nat (length (ranks_with rc N))).
Proof.
  intros Hlen. unfold countRanksWithFrequency, ranks_with.
  rewrite count_loop; [done| |done|by vm_compute].
  apply Forall_seqZ. intros r Hr. lia.
Qed.

Lemma elem_of_ranks_with (rc : list Z) (n r : Z) :
  r ∈ ranks_with rc n ↔ has_count rc n r.
Proof.
  unfold ranks_with, has_count. rewrite list_elem_of_filter, elem_of_seqZ. lia.
Qed.

Lemma NoDup_ranks_with (rc : list Z) (n : Z) : NoDup (ranks_with rc n).
Proof. apply NoDup_filter, NoDup_seqZ. Qed.

Lemma no_rank_spec (rc : list Z) (n : Z) :
  length (ranks_with rc n) = 0%nat ↔ no_rank rc n.
Proof.
  unfold no_rank. split.
  - intros Hl%nil_length_inv r Hr%elem_of_ranks_with.
    rewrite Hl in Hr. by apply elem_of_nil in Hr.
  - intros Hno. destruct (ranks_with rc n) as [|r l] eqn:E; [done|].
    destruct (Hno r). apply elem_of_ranks_with. rewrite E. left.
Qed.

Lemma one_rank_spec (rc : list Z) (n : Z) :
  length (ranks_with rc n) = 1%nat ↔ one_rank rc n.
Proof.
  unfold one_rank. pose proof (NoDup_ranks_with rc n) as Hnd.
  setoid_rewrite <- elem_of_ranks_with.
  destruct (ranks_with rc n) as [|r [|r2 l]]; simpl.
  - split; [done|]. intros (r & Hr & _). by apply elem_of_nil in Hr.
  - split; [|done]. intros _. exists r. split; [left|].
    intros r' Hr'. by apply list_elem_of_singleton in Hr'.
  - split; [done|]. intros (x & _ & Huniq).
    apply NoDup_cons in Hnd as [Hnotin _]. destruct Hnotin.
    rewrite (Huniq r) by left. rewrite (Huniq r2) by (right; left). left.
Qed.

Lemma two_ranks_spec (rc : list Z) (n : Z) :
  length (ranks_with rc n) = 2%nat ↔ two_ranks rc n.
Proof.
  unfold two_ranks. pose proof (NoDup_ranks_with rc n) as Hnd.
  setoid_rewrite <- elem_of_ranks_with.
  split.
  - destruct (ranks_with rc n) as [|r1 [|r2 [|r3 l]]]; try done. intros _.
    apply NoDup_cons in Hnd as [Hne _].
    exists r1, r2. split; [|split; [left|split; [right; left|]]].
    + intros ->. apply Hne. left.
    + intros r' Hr'. apply elem_of_cons in Hr' as [->|Hr']; [by left|].
      apply list_elem_of_singleton in Hr'. by right.
  - intros (r1 & r2 & Hne & H1 & H2 & Hall).
    assert (Hperm : ranks_with rc n ≡ₚ [r1; r2]).
    { apply NoDup_Permutation; [done| |].
      - apply NoDup_cons. split; [|apply NoDup_singleton].
        by intros ->%list_elem_of_singleton.
      - intros x. split.
        + intros [->| ->]%Hall; [left|right; left].
        + intros [->|Hx]%elem_of_cons; [done|].
          by apply list_elem_of_singleton in Hx as ->. }
    by rewrite (Permutation_length Hperm).
Qed.

(** The count-based tests of the program against the ladder's words. *)
Lemma isFourOfAKind_spec (rc : list Z) :
  length rc = 15%nat →
  ∃ b, isFourOfAKind rc = Ok b ∧ (b = true ↔ one_rank rc 4).
Proof.
  intros Hlen. unfold isFourOfAKind.
  rewrite countRanksWithFrequency_spec by done. simpl.
  eexists. split; [done|]. rewrite <- one_rank_spec, Z.eqb_eq. lia.
Qed.

Lemma isFullHouse_spec (rc : list Z) :
  length rc = 15%nat →
  ∃ b, isFullHouse rc = Ok b ∧ (b = true ↔ one_rank rc 3 ∧ one_rank rc 2).
Proof.
  intros Hlen. unfold isFullHouse, and_then.
  rewrite !countRanksWithFrequency_spec by done. simpl.
  setoid_rewrite <- one_rank_spec.
  destruct (Z.eqb_spec (Z.of_nat (length (ranks_with rc 3))) 1) as [H3|H3]; simpl.
  - eexists. split; [done|]. rewrite Z.eqb_eq. lia.
  - exists false. split; [done|]. split; [done|]. lia.
Qed.

Lemma isThreeOfAKind_spec (rc : list Z) :
  length rc = 15%nat →
  ∃ b, isThreeOfAKind rc = Ok b ∧ (b = true ↔ one_rank rc 3 ∧ no_rank rc 2).
Proof.
  intros Hlen. unfold isThreeOfAKind, and_then.
  rewrite !countRanksWithFrequency_spec by done. simpl.
  setoid_rewrite <- one_rank_spec. setoid_rewrite <- no_rank_spec.
  destruct (Z.eqb_spec (Z.of_nat (length (ranks_with rc 3))) 1) as [H3|H3]; simpl.
  - eexists. split; [done|]. rewrite Z.eqb_eq. lia.
  - exists false. split; [done|]. split; [done|]. lia.
Qed.

Lemma isTwoPair_spec (rc : list Z) :
  length rc = 15%nat →
  ∃ b, isTwoPair rc = Ok b ∧ (b = true ↔ two_ranks rc 2).
Proof.
  intros Hlen. unfold isTwoPair.
  rewrite countRanksWithFrequency_spec by done. simpl.
  eexists. split; [done|]. rewrite <- two_ranks_spec, Z.eqb_eq. lia.
Qed.

Lemma isOnePair_spec (rc : list Z) :
  length rc = 15%nat →
  ∃ b, isOnePair rc = Ok b ∧ (b = true ↔ one_rank rc 2).
Proof.
  intros Hlen. unfold isOnePair.
  rewrite countRanksWithFrequency_spec by done. simpl.
  eexists. split; [done|]. rewrite <- one_rank_spec, Z.eqb_eq. lia.
Qed.

Lemma isFlush_four (a b c d : Z) :
  isFlush [a; b; c; d] = Ok ((a =? 5) || (b =? 5) || (c =? 5) || (d =? 5)).
Proof.
  unfold isFlush. unroll_seqZ. cbv -[Z.eqb].
  by destruct (a =? 5), (b =? 5), (c =? 5), (d =? 5).
Qed.

Lemma isFlush_spec (sc : list Z) :
  length sc = 4%nat → ∃ b, isFlush sc = Ok b ∧ (b = true ↔ flush sc).
Proof.
  intros Hlen.
  destruct sc as [|a [|b [|c [|d [|? ?]]]]]; try discriminate Hlen.
  rewrite isFlush_four. eexists. split; [done|].
  rewrite !orb_true_iff, !Z.eqb_eq. unfold flush. split.
  - intros [[[H|H]|H]|H]; [exists 0|exists 1|exists 2|exists 3]; by split.
  - intros (s & Hs & He).
    assert (Hcases : s = 0 ∨ s = 1 ∨ s = 2 ∨ s = 3) by lia.
    destruct Hcases as [->|[->|[->| ->]]]; cbv in He; tauto.
Qed.

(** ** isStraight *)

Lemma for_return_ext {S R : Type} (idx : list Z)
    (f g : Z → S → outcome (flow S R)) (s : S) :
  (∀ i t, i ∈ idx → f i t = g i t) → for_return idx f s = for_return idx g s.
Proof.
  revert s. induction idx as [|i idx IH]; intros s Hfg; simpl; [done|].
  rewrite Hfg by left. destruct (g i s) as [[s'|r]| |]; simpl; try done.
  apply IH. intros j t Hj. apply Hfg. by right.
Qed.

(** A test [rankCount[r] == 1] is a call of [is_one]. *)
Lemma test_is_one {T : Type} (rc : list Z) (r : Z) (A B : outcome T) :
  (load rc r ≫= λ v, if v =? 1 then A else B)
  = (is_one rc r ≫= λ b : bool, if b then A else B).
Proof. unfold is_one. by destruct (load rc r). Qed.

(** isStraight depends on the table only through the tests for 1 at the
    ranks 2..14. *)
Lemma isStraight_ext (rc rc' : list Z) :
  (∀ r, 2 ≤ r ≤ 14 → is_one rc r = is_one rc' r) →
  isStraight rc = isStraight rc'.
Proof.
  intros Hone. unfold isStraight.
  assert (Hcount : countRanksWithFrequency rc 1 = countRanksWithFrequency rc' 1).
  { unfold countRanksWithFrequency. apply for_each_ext.
    intros r t Hr%elem_of_seqZ. rewrite !test_is_one, Hone by lia. done. }
  assert (Hrun : run_of_five rc = run_of_five rc').
  { unfold run_of_five. apply for_return_ext.
    intros r t Hr%elem_of_seqZ. rewrite !test_is_one, Hone by lia. done. }
  assert (Hwheel : is_wheel rc = is_wheel rc').
  { unfold is_wheel.
    by rewrite (Hone 14), (Hone 2), (Hone 3), (Hone 4), (Hone 5) by lia. }
  by rewrite Hcount, Hrun, Hwheel.
Qed.

Lemma is_one_entry (rc : list Z) (r : Z) :
  0 ≤ r < Z.of_nat (length rc) → is_one rc r = Ok (entry rc r =? 1).
Proof. intros Hr. unfold is_one. by rewrite load_entry. Qed.

Lemma length_one_flags (rc : list Z) : length (one_flags rc) = 13%nat.
Proof. unfold one_flags. by rewrite length_fmap, length_seqZ. Qed.

Lemma length_table_of_flags (bs : list bool) :
  length (table_of_flags bs) = S (S (length bs)).
Proof. unfold table_of_flags. simpl. by rewrite length_fmap. Qed.

Lemma entry_table_of_flags (rc : list Z) (r : Z) :
  2 ≤ r ≤ 14 →
  entry (table_of_flags (one_flags rc)) r
  = if bool_decide (entry rc r = 1) then 1 else 0.
Proof.
  intros Hr.
  assert (Hcases : r = 2 ∨ r = 3 ∨ r = 4 ∨ r = 5 ∨ r = 6 ∨ r = 7 ∨ r = 8 ∨
                   r = 9 ∨ r = 10 ∨ r = 11 ∨ r = 12 ∨ r = 13 ∨ r = 14) by lia.
  repeat (destruct Hcases as [->|Hcases]; [reflexivity|]).
  by subst r.
Qed.

Lemma entry_table_of_flags_one (rc : list Z) (r : Z) :
  2 ≤ r ≤ 14 →
  entry (table_of_flags (one_flags rc)) r = 1 ↔ entry rc r = 1.
Proof.
  intros Hr. rewrite entry_table_of_flags by done.
  case_bool_decide; split; (done || lia).
Qed.

Lemma isStraight_flags (rc : list Z) :
  length rc = 15%nat →
  isStraight rc = isStraight (table_of_flags (one_flags rc)).
Proof.
  intros Hlen. apply isStraight_ext. intros r Hr.
  rewrite !is_one_entry
    by (rewrite ?length_table_of_flags, ?length_one_flags; lia).
  f_equal. apply eq_iff_eq_true.
  rewrite !Z.eqb_eq. by rewrite entry_table_of_flags_one.
Qed.

Lemma filter_ext_in {A : Type} (P Q : A → Prop)
    `{∀ x, Decision (P x)} `{∀ x, Decision (Q x)} (l : list A) :
  (∀ x, x ∈ l → P x ↔ Q x) ↔ filter P l = filter Q l.
Proof.
  split.
  - induction l as [|x l IH]; intros HPQ; [done|].
    rewrite !filter_cons.
    rewrite IH by (intros y Hy; apply HPQ; by right).
    pose proof (HPQ x (list_elem_of_here _ _)) as Hx.
    destruct (decide (P x)), (decide (Q x)); tauto.
  - intros Heq x Hx.
    pose proof (list_elem_of_filter P l x) as HP.
    pose proof (list_elem_of_filter Q l x) as HQ.
    rewrite Heq in HP. tauto.
Qed.

Lemma ranks_with_flags (rc : list Z) :
  ranks_with (table_of_flags (one_flags rc)) 1 = ranks_with rc 1.
Proof.
  unfold ranks_with. apply filter_ext_in.
  intros r Hr%elem_of_seqZ. apply entry_table_of_flags_one. lia.
Qed.

Lemma all_flags_complete (bs : list bool) : bs ∈ all_flags (length bs).
Proof.
  induction bs as [|b bs IH]; simpl; [left|].
  apply elem_of_app. destruct b; [left|right]; by apply list_elem_of_fmap_2.
Qed.

(** The 8192 tables up to the tests of isStraight, one by one. *)
Lemma isStraight_all_flags :
  Forall (λ bs, isStraight (table_of_flags bs)
                = Ok (bool_decide (ranks_with (table_of_flags bs) 1
                                   ∈ straight_windows)))
         (all_flags 13).
Proof. apply (bool_decide_unpack _). vm_compute. exact I. Qed.

Lemma isStraight_windows (rc : list Z) :
  length rc = 15%nat →
  isStraight rc = Ok (bool_decide (ranks_with rc 1 ∈ straight_windows)).
Proof.
  intros Hlen. rewrite isStraight_flags, <- ranks_with_flags by done.
  pose proof isStraight_all_flags as Hall.
  rewrite Forall_forall in Hall. apply Hall.
  rewrite <- (length_one_flags rc). apply all_flags_complete.
Qed.

Lemma window_as_filter (lo : Z) :
  2 ≤ lo ≤ 10 → seqZ lo 5 = filter (λ r, lo ≤ r ≤ lo + 4) (seqZ 2 13).
Proof.
  intros Hlo.
  assert (Hcases : lo = 2 ∨ lo = 3 ∨ lo = 4 ∨ lo = 5 ∨ lo = 6 ∨ lo = 7 ∨
                   lo = 8 ∨ lo = 9 ∨ lo = 10) by lia.
  repeat (destruct Hcases as [->|Hcases]; [by vm_compute|]).
  subst lo. by vm_compute.
Qed.

Lemma ranks_with_window (rc : list Z) (lo : Z) :
  2 ≤ lo ≤ 10 →
  ranks_with rc 1 = seqZ lo 5 ↔ ∀ r, has_count rc 1 r ↔ lo ≤ r ≤ lo + 4.
Proof.
  intros Hlo. rewrite window_as_filter by done. unfold ranks_with, has_count.
  rewrite <- filter_ext_in. setoid_rewrite elem_of_seqZ.
  split; intros H r; specialize (H r); lia.
Qed.

Lemma ranks_with_wheel (rc : list Z) :
  ranks_with rc 1 = [2; 3; 4; 5; 14] ↔
  ∀ r, has_count rc 1 r ↔ 2 ≤ r ≤ 5 ∨ r = 14.
Proof.
  change [2; 3; 4; 5; 14] with (filter (λ r, 2 ≤ r ≤ 5 ∨ r = 14) (seqZ 2 13)).
  unfold ranks_with, has_count.
  rewrite <- filter_ext_in. setoid_rewrite elem_of_seqZ.
  split; intros H r; specialize (H r); lia.
Qed.

Lemma straight_windows_spec (rc : list Z) :
  ranks_with rc 1 ∈ straight_windows ↔ straight rc.
Proof.
  unfold straight_windows, straight.
  rewrite elem_of_app, list_elem_of_fmap, list_elem_of_singleton, ranks_with_wheel.
  apply or_iff_compat_r. split.
  - intros (lo & Heq & Hlo%elem_of_seqZ). exists lo. split; [lia|].
    apply ranks_with_window; [lia|done].
  - intros (lo & Hlo & Hwin). exists lo. split.
    + by apply ranks_with_window.
    + apply elem_of_seqZ. lia.
Qed.

Lemma isStraight_spec (rc : list Z) :
  length rc = 15%nat → ∃ b, isStraight rc = Ok b ∧ (b = true ↔ straight rc).
Proof.
  intros Hlen. rewrite (isStraight_windows rc Hlen). eexists. split; [done|].
  rewrite <- straight_windows_spec.
  split; [apply bool_decide_eq_true_1|apply bool_decide_eq_true_2].
Qed.

(** ** handleHand against the ladder *)

(** The [if ... else if ...] chain of the program follows the ladder of
    conditions it tests. *)
Lemma first_match_holding (code : list (outcome bool * Z))
    (spec : list (Prop * Z)) (otherwise : Z) :
  Forall2 (λ c s, c.2 = s.2 ∧ ∃ b : bool, c.1 = Ok b ∧ (b = true ↔ s.1))
          code spec →
  ∃ n, first_match code otherwise = Ok n ∧ first_holding spec otherwise n ∧
       (n = otherwise ∨ n ∈ code.*2).
Proof.
  induction 1 as [|[m k] [P k'] code spec (Hk & b & Hm & Hb) _ IH]; simpl in *.
  - exists otherwise. split; [done|]. split; [done|]. by left.
  - subst m k'. simpl. destruct b.
    + exists k. split; [done|]. split; [left; split; [by apply Hb|done]|].
      right. left.
    + destruct IH as (n & Hrun & Hspec & Hn). exists n. split; [done|]. split.
      * right. split; [|done]. intros HP%Hb. discriminate.
      * destruct Hn as [Hn|Hn]; [by left|right; by right].
Qed.

Lemma and_then_spec (a b : outcome bool) (P Q : Prop) :
  (∃ x : bool, a = Ok x ∧ (x = true ↔ P)) →
  (∃ y : bool, b = Ok y ∧ (y = true ↔ Q)) →
  ∃ z : bool, and_then a b = Ok z ∧ (z = true ↔ P ∧ Q).
Proof.
  intros (x & -> & Hx) (y & -> & Hy). unfold and_then. simpl.
  destruct x; simpl.
  - exists y. split; [done|]. tauto.
  - exists false. split; [done|]. split; [done|]. intros [HP%Hx _]. discriminate.
Qed.

Lemma handleHand_category (rc sc : list Z) :
  length rc = 15%nat → length sc = 4%nat →
  ∃ n, handleHand rc sc = Ok n ∧ category rc sc n ∧ 1 ≤ n ≤ 9.
Proof.
  intros Hrc Hsc. unfold handleHand, category.
  edestruct first_match_holding as (n & Hrun & Hspec & Hn);
    [|exists n; split; [exact Hrun|split; [exact Hspec|]]].
  - repeat (match goal with
            | |- Forall2 _ (_ :: _) (_ :: _) =>
                constructor; [split; [reflexivity|cbn [fst snd]]|]
            end); [..|constructor].
    + apply and_then_spec; [by apply isStraight_spec|by apply isFlush_spec].
    + by apply isFourOfAKind_spec.
    + by apply isFullHouse_spec.
    + by apply isFlush_spec.
    + by apply isStraight_spec.
    + by apply isThreeOfAKind_spec.
    + by apply isTwoPair_spec.
    + by apply isOnePair_spec.
  - destruct Hn as [->|Hn]; [lia|]. simpl in Hn.
    repeat (apply elem_of_cons in Hn as [->|Hn]; [lia|]).
    by apply elem_of_nil in Hn.
Qed.

(** ** The ladder's words on the tables of a hand *)

(** On the tables of a five-card hand (entries that are not negative and
    sum to 5) "one suit with count 5" and "one rank with count 3 or 4"
    cannot hold of two suits or two ranks: there "some" and "exactly one"
    say the same. *)
Lemma hand_flush_unique (sc : list Z) (s s' : Z) :
  length sc = 4%nat → Forall (λ x, 0 ≤ x) sc → table_sum sc 0 4 = 5 →
  0 ≤ s ≤ 3 → 0 ≤ s' ≤ 3 → entry sc s = 5 → entry sc s' = 5 → s = s'.
Proof.
  intros Hlen Hpos Hsum Hs Hs' He He'.
  destruct sc as [|a [|b [|c [|d [|? ?]]]]]; try discriminate Hlen.
  repeat (apply Forall_cons in Hpos as [? Hpos]).
  cbv [table_sum sum_list drop take foldr] in Hsum.
  assert (Hc : s = 0 ∨ s = 1 ∨ s = 2 ∨ s = 3) by lia.
  assert (Hc' : s' = 0 ∨ s' = 1 ∨ s' = 2 ∨ s' = 3) by lia.
  destruct Hc as [->|[->|[->| ->]]], Hc' as [->|[->|[->| ->]]];
    cbv in He, He'; lia.
Qed.

Lemma hand_rank_unique (rc : list Z) (n r r' : Z) :
  length rc = 15%nat → Forall (λ x, 0 ≤ x) rc → table_sum rc 2 13 = 5 →
  3 ≤ n → has_count rc n r → has_count rc n r' → r' = r.
Proof.
  intros Hlen Hpos Hsum Hn [Hr He] [Hr' He'].
  do 15 (destruct rc as [|? rc]; [discriminate Hlen|]).
  destruct rc; [|discriminate Hlen].
  repeat (apply Forall_cons in Hpos as [? Hpos]).
  cbv [table_sum sum_list drop take foldr] in Hsum.
  assert (Hc : r = 2 ∨ r = 3 ∨ r = 4 ∨ r = 5 ∨ r = 6 ∨ r = 7 ∨ r = 8 ∨
               r = 9 ∨ r = 10 ∨ r = 11 ∨ r = 12 ∨ r = 13 ∨ r = 14) by lia.
  assert (Hc' : r' = 2 ∨ r' = 3 ∨ r' = 4 ∨ r' = 5 ∨ r' = 6 ∨ r' = 7 ∨ r' = 8 ∨
                r' = 9 ∨ r' = 10 ∨ r' = 11 ∨ r' = 12 ∨ r' = 13 ∨ r' = 14) by lia.
  clear Hr Hr'.
  repeat (destruct Hc as [->|Hc]); try subst r;
    repeat (destruct Hc' as [->|Hc']); try subst r';
    cbv in He, He'; lia.
Qed.

Lemma hand_one_rank (rc : list Z) (n r : Z) :
  length rc = 15%nat → Forall (λ x, 0 ≤ x) rc → table_sum rc 2 13 = 5 →
  3 ≤ n → has_count rc n r → one_rank rc n.
Proof.
  intros Hlen Hpos Hsum Hn Hr. exists r. split; [done|].
  intros r' Hr'. by apply (hand_rank_unique rc n r r').
Qed.

(** ** Hands given by their rank counts *)

Lemma rank_counts_not_straight (rc : list Z) (a b : Z) :
  rank_counts_are rc a b → a ≠ 1 → ¬ straight rc.
Proof.
  intros (x & y & Hxy & [Hx Hax] & [Hy Hby] & Hrest) Ha Hstraight.
  assert (Hpair : ∃ r1 r2, r1 ≠ r2 ∧ has_count rc 1 r1 ∧ has_count rc 1 r2).
  { destruct Hstraight as [(lo & Hlo & Hwin)|Hwheel].
    - exists lo, (lo + 1). split; [lia|]. split; apply Hwin; lia.
    - exists 2, 3. split; [lia|]. split; apply Hwheel; lia. }
  destruct Hpair as (r1 & r2 & Hne & [Hr1 H1] & [Hr2 H2]).
  assert (Hnx : ∀ r, 2 ≤ r ≤ 14 → entry rc r = 1 → r = y).
  { intros r Hr Hone. destruct (decide (r = x)) as [->|Hrx]; [congruence|].
    destruct (decide (r = y)) as [->|Hry]; [done|].
    rewrite (Hrest r Hr Hrx Hry) in Hone. discriminate. }
  apply Hne. rewrite (Hnx r1 Hr1 H1). by rewrite (Hnx r2 Hr2 H2).
Qed.

Lemma rank_counts_one_rank (rc : list Z) (a b : Z) :
  rank_counts_are rc a b → a ≠ b → a ≠ 0 → b ≠ 0 →
  one_rank rc a ∧ one_rank rc b.
Proof.
  intros (x & y & Hxy & [Hx Hax] & [Hy Hby] & Hrest) Hab Ha Hb. split.
  - exists x. split; [by split|]. intros r [Hr Hra].
    destruct (decide (r = x)) as [->|Hrx]; [done|].
    destruct (decide (r = y)) as [->|Hry]; [congruence|].
    rewrite (Hrest r Hr Hrx Hry) in Hra. congruence.
  - exists y. split; [by split|]. intros r [Hr Hrb].
    destruct (decide (r = y)) as [->|Hry]; [done|].
    destruct (decide (r = x)) as [->|Hrx]; [congruence|].
    rewrite (Hrest r Hr Hrx Hry) in Hrb. congruence.
Qed.

Lemma rank_counts_no_other (rc : list Z) (a b n : Z) :
  rank_counts_are rc a b → n ≠ a → n ≠ b → n ≠ 0 → ¬ one_rank rc n.
Proof.
  intros (x & y & Hxy & [Hx Hax] & [Hy Hby] & Hrest) Hna Hnb Hn0
         (r & [Hr Hrn] & _).
  destruct (decide (r = x)) as [->|Hrx]; [congruence|].
  destruct (decide (r = y)) as [->|Hry]; [congruence|].
  rewrite (Hrest r Hr Hrx Hry) in Hrn. congruence.
Qed.

(** Four of a kind is category 2 whatever the suits. *)
Lemma handleHand_quads (rc sc : list Z) :
  length rc = 15%nat → length sc = 4%nat →
  rank_counts_are rc 4 1 → handleHand rc sc = Ok 2.
Proof.
  intros Hrc Hsc Hshape.
  destruct (handleHand_category rc sc Hrc Hsc) as (n & -> & Hcat & _).
  pose proof (rank_counts_not_straight rc 4 1 Hshape ltac:(lia)) as Hns.
  destruct (rank_counts_one_rank rc 4 1 Hshape) as [H4 _]; [lia..|].
  f_equal. unfold category in Hcat. simpl in Hcat. tauto.
Qed.

(** A full house is category 3 whatever the suits. *)
Lemma handleHand_full_house (rc sc : list Z) :
  length rc = 15%nat → length sc = 4%nat →
  rank_counts_are rc 3 2 → handleHand rc sc = Ok 3.
Proof.
  intros Hrc Hsc Hshape.
  destruct (handleHand_category rc sc Hrc Hsc) as (n & -> & Hcat & _).
  pose proof (rank_counts_not_straight rc 3 2 Hshape ltac:(lia)) as Hns.
  destruct (rank_counts_one_rank rc 3 2 Hshape) as [H3 H2]; [lia..|].
  pose proof (rank_counts_no_other rc 3 2 4 Hshape) as H4.
  f_equal. unfold category in Hcat. simpl in Hcat.
  destruct Hcat as [[[Hs _] _]|[_ [[H _]|[_ [[_ Hn]|[Hn _]]]]]];
    [tauto|exfalso; apply H4; (lia || done)|done|tauto].
Qed.

(** C2: for all frequency tables (of the declared sizes) handleHand
    returns the number between 1 and 9 that the category ladder gives
    with first-match-wins precedence; a hand whose rank counts are {3,2}
    gets 3 (not 6, not 8) and one whose rank counts are {4,1} gets 2,
    whatever the suit table holds. *)
Theorem handleHand_ladder (rc sc : list Z) :
  length rc = 15%nat → length sc = 4%nat →
  ∃ n, handleHand rc sc = Ok n ∧ 1 ≤ n ≤ 9 ∧ category rc sc n ∧
       (rank_counts_are rc 3 2 → n = 3) ∧
       (rank_counts_are rc 4 1 → n = 2).
Proof.
  intros Hrc Hsc.
  destruct (handleHand_category rc sc Hrc Hsc) as (n & Hrun & Hcat & Hn).
  exists n. repeat split; try done; try lia.
  - intros Hshape. rewrite (handleHand_full_house rc sc Hrc Hsc Hshape) in Hrun.
    by injection Hrun.
  - intros Hshape. rewrite (handleHand_quads rc sc Hrc Hsc Hshape) in Hrun.
    by injection Hrun.
Qed.

Lemma handleHand_ladder_witness :
  ∃ n, handleHand (rank_table [2; 2; 2; 5; 5]) [5; 0; 0; 0] = Ok n ∧
       1 ≤ n ≤ 9 ∧ category (rank_table [2; 2; 2; 5; 5]) [5; 0; 0; 0] n ∧
       (rank_counts_are (rank_table [2; 2; 2; 5; 5]) 3 2 → n = 3) ∧
       (rank_counts_are (rank_table [2; 2; 2; 5; 5]) 4 1 → n = 2).
Proof.
  apply handleHand_ladder; reflexivity.
Defined.

Example full_house_counts : rank_counts_are (rank_table [2; 2; 2; 5; 5]) 3 2.
Proof.
  exists 2, 5. split; [lia|]. split; [by split|]. split; [by split|].
  intros r Hr H2 H5.
  assert (Hcases : r = 3 ∨ r = 4 ∨ r = 6 ∨ r = 7 ∨ r = 8 ∨ r = 9 ∨ r = 10 ∨
                   r = 11 ∨ r = 12 ∨ r = 13 ∨ r = 14) by lia.
  repeat (destruct Hcases as [->|Hcases]; [reflexivity|]). by subst r.
Qed.

Example quads_counts : rank_counts_are (rank_table [2; 2; 2; 2; 5]) 4 1.
Proof.
  exists 2, 5. split; [lia|]. split; [by split|]. split; [by split|].
  intros r Hr H2 H5.
  assert (Hcases : r = 3 ∨ r = 4 ∨ r = 6 ∨ r = 7 ∨ r = 8 ∨ r = 9 ∨ r = 10 ∨
                   r = 11 ∨ r = 12 ∨ r = 13 ∨ r = 14) by lia.
  repeat (destruct Hcases as [->|Hcases]; [reflexivity|]). by subst r.
Qed.

(** ** Straights of five-card hands *)

Lemma count_table_perm (n : Z) (l l' : list Z) :
  l ≡ₚ l' → count_table n l = count_table n l'.
Proof.
  intros Hperm. unfold count_table. apply list_fmap_ext.
  intros _ i _. by rewrite Hperm.
Qed.

Lemma entry_rank_table (ranks : list Z) (r : Z) :
  0 ≤ r < 15 →
  entry (rank_table ranks) r = Z.of_nat (length (filter (λ x, x = r) ranks)).
Proof.
  intros Hr. unfold entry, rank_table.
  rewrite lookup_count_table by lia. simpl. by rewrite Z2Nat.id by lia.
Qed.

(** A rank counted once is a card of the hand. *)
Lemma has_count_one_elem (ranks : list Z) (r : Z) :
  has_count (rank_table ranks) 1 r → r ∈ ranks.
Proof.
  intros [Hr Hone]. rewrite entry_rank_table in Hone by lia.
  destruct (filter (λ x, x = r) ranks) as [|x l] eqn:E; [discriminate|].
  assert (Hx : x ∈ filter (λ x, x = r) ranks) by (rewrite E; left).
  apply list_elem_of_filter in Hx as [-> Hx]. done.
Qed.

Lemma straight_windows_shape (w : list Z) :
  w ∈ straight_windows →
  length w = 5%nat ∧ NoDup w ∧ ranks_with (rank_table w) 1 = w.
Proof.
  intros Hw.
  let ws := eval vm_compute in straight_windows in
    change straight_windows with ws in Hw.
  repeat (apply elem_of_cons in Hw as [->|Hw];
          [split; [done|split; [apply (bool_decide_unpack _); by vm_compute
                               |by vm_compute]]|]).
  by apply elem_of_nil in Hw.
Qed.

(** For a five-card hand the ranks counted once form a straight exactly
    when the hand is that straight, in some order. *)
Lemma hand_ranks_window (ranks w : list Z) :
  length ranks = 5%nat → w ∈ straight_windows →
  ranks_with (rank_table ranks) 1 = w ↔ ranks ≡ₚ w.
Proof.
  intros Hlen Hw. destruct (straight_windows_shape w Hw) as (Hlw & Hnd & Hself).
  split.
  - intros Heq. symmetry. apply submseteq_length_Permutation; [|lia].
    apply NoDup_submseteq; [done|]. intros r Hr. rewrite <- Heq in Hr.
    by apply elem_of_ranks_with, has_count_one_elem in Hr.
  - intros Hperm. unfold rank_table. by rewrite (count_table_perm 15 _ _ Hperm).
Qed.

Lemma straight_hand (ranks : list Z) :
  length ranks = 5%nat →
  straight (rank_table ranks) ↔
  (∃ lo, 2 ≤ lo ≤ 10 ∧ ranks ≡ₚ seqZ lo 5) ∨ ranks ≡ₚ [14; 2; 3; 4; 5].
Proof.
  intros Hlen. rewrite <- straight_windows_spec.
  assert (Hwheel : [14; 2; 3; 4; 5] ≡ₚ [2; 3; 4; 5; 14])
    by (apply (bool_decide_unpack _); by vm_compute).
  assert (Hin : ∀ lo, 2 ≤ lo ≤ 10 → seqZ lo 5 ∈ straight_windows).
  { intros lo Hlo. unfold straight_windows. apply elem_of_app. left.
    apply list_elem_of_fmap. exists lo. split; [done|]. apply elem_of_seqZ. lia. }
  assert (Hinw : [2; 3; 4; 5; 14] ∈ straight_windows).
  { unfold straight_windows. apply elem_of_app. right. left. }
  split.
  - intros Hw. pose proof Hw as Hw'. unfold straight_windows in Hw'.
    apply elem_of_app in Hw' as [Hw'|Hw'].
    + apply list_elem_of_fmap in Hw' as (lo & Heq & Hlo%elem_of_seqZ).
      left. exists lo. split; [lia|]. rewrite <- Heq.
      eapply hand_ranks_window; [done|exact Hw|done].
    + apply list_elem_of_singleton in Hw'. right. rewrite Hwheel.
      eapply hand_ranks_window; [done|exact Hinw|done].
  - intros [(lo & Hlo & Hperm)|Hperm].
    + apply (hand_ranks_window ranks _ Hlen (Hin lo Hlo)) in Hperm.
      rewrite Hperm. by apply Hin.
    + rewrite Hwheel in Hperm.
      apply (hand_ranks_window ranks _ Hlen Hinw) in Hperm.
      rewrite Hperm. exact Hinw.
Qed.

(** C3: isStraight returns true for a rank table exactly when the ranks
    held once are five consecutive values of 2..14 or the wheel; for the
    table of a five-card hand, exactly when the hand's ranks are, in some
    order, lo..lo+4 with 2 <= lo <= 10 or 14,2,3,4,5 (five distinct
    ranks).  The table of {14,2,3,4,5} gives true, that of {2,3,4,5,7}
    gives false. *)
Theorem isStraight_exactly (rc ranks : list Z) :
  length rc = 15%nat → length ranks = 5%nat →
  (∃ b, isStraight rc = Ok b ∧ (b = true ↔ straight rc)) ∧
  (∃ b, isStraight (rank_table ranks) = Ok b ∧
        (b = true ↔
           NoDup ranks ∧
           ((∃ lo, 2 ≤ lo ≤ 10 ∧ ranks ≡ₚ seqZ lo 5) ∨
            ranks ≡ₚ [14; 2; 3; 4; 5]))) ∧
  isStraight (rank_table [14; 2; 3; 4; 5]) = Ok true ∧
  isStraight (rank_table [2; 3; 4; 5; 7]) = Ok false.
Proof.
  intros Hrc Hranks. split; [by apply isStraight_spec|].
  split; [|split; by vm_compute].
  destruct (isStraight_spec (rank_table ranks)) as (b & Hrun & Hb).
  { unfold rank_table. by rewrite length_count_table. }
  exists b. split; [done|]. rewrite Hb, (straight_hand ranks Hranks).
  split; [|tauto]. intros Hs. split; [|done].
  destruct Hs as [(lo & _ & Hperm)|Hperm]; rewrite Hperm.
  - apply NoDup_seqZ.
  - apply (bool_decide_unpack _). by vm_compute.
Qed.

Lemma isStraight_exactly_witness :
  (∃ b, isStraight [0; 0; 1; 1; 1; 1; 1; 2; 0; 0; 0; 0; 0; 0; 0] = Ok b ∧
        (b = true ↔ straight [0; 0; 1; 1; 1; 1; 1; 2; 0; 0; 0; 0; 0; 0; 0])) ∧
  (∃ b, isStraight (rank_table [7; 9; 8; 11; 10]) = Ok b ∧
        (b = true ↔
           NoDup [7; 9; 8; 11; 10] ∧
           ((∃ lo, 2 ≤ lo ≤ 10 ∧ [7; 9; 8; 11; 10] ≡ₚ seqZ lo 5) ∨
            [7; 9; 8; 11; 10] ≡ₚ [14; 2; 3; 4; 5]))) ∧
  isStraight (rank_table [14; 2; 3; 4; 5]) = Ok true ∧
  isStraight (rank_table [2; 3; 4; 5; 7]) = Ok false.
Proof.
  apply isStraight_exactly; reflexivity.
Defined.

(** C6: the hand 10-J-Q-K-A of spades (ones at ranks 10..14 of the rank
    table, suitCount[3] = 5) is category 1, and that is strictly less
    than the category 2 that handleHand gives a four-of-a-kind hand. *)
Theorem straight_flush_beats_quads (rc sc : list Z) :
  length rc = 15%nat → length sc = 4%nat → rank_counts_are rc 4 1 →
  ∃ n1 n2,
    handleHand [0; 0; 0; 0; 0; 0; 0; 0; 0; 0; 1; 1; 1; 1; 1] [0; 0; 0; 5] = Ok n1 ∧
    n1 = 1 ∧
    isFlush [0; 0; 0; 5] = Ok true ∧
    handleHand rc sc = Ok n2 ∧ n2 = 2 ∧ n1 < n2.
Proof.
  intros Hrc Hsc Hshape. exists 1, 2.
  split; [by vm_compute|]. split; [done|]. split; [by vm_compute|].
  split; [by apply handleHand_quads|]. split; [done|lia].
Qed.

Lemma straight_flush_beats_quads_witness :
  ∃ n1 n2,
    handleHand [0; 0; 0; 0; 0; 0; 0; 0; 0; 0; 1; 1; 1; 1; 1] [0; 0; 0; 5] = Ok n1 ∧
    n1 = 1 ∧
    isFlush [0; 0; 0; 5] = Ok true ∧
    handleHand (rank_table [2; 2; 2; 2; 5]) [1; 1; 1; 2] = Ok n2 ∧
    n2 = 2 ∧ n1 < n2.
Proof.
  apply straight_flush_beats_quads.
  - reflexivity.
  - reflexivity.
  - exact quads_counts.
Defined.

(** ** The unused entries of the rank table *)

Section unused_entries.
Variables rc1 rc2 : list Z.
Hypothesis agree : ∀ i : nat, (2 ≤ i ≤ 14)%nat → rc1 !! i = rc2 !! i.

Lemma load_agree (r : Z) : 2 ≤ r ≤ 14 → load rc1 r = load rc2 r.
Proof. intros Hr. unfold load. by rewrite agree by lia. Qed.

Lemma countRanksWithFrequency_agree (N : Z) :
  countRanksWithFrequency rc1 N = countRanksWithFrequency rc2 N.
Proof.
  unfold countRanksWithFrequency. apply for_each_ext.
  intros r t Hr%elem_of_seqZ. by rewrite load_agree by lia.
Qed.

Lemma isStraight_agree : isStraight rc1 = isStraight rc2.
Proof.
  apply isStraight_ext. intros r Hr. unfold is_one. by rewrite load_agree.
Qed.
End unused_entries.

(** C9: two rank count arrays that agree on the indices 2..14 get the
    same priority from handleHand, whatever they hold at indices 0 and 1
    and whatever the suit count array is. *)
Theorem handleHand_ignores_unused (rc1 rc2 sc : list Z) :
  (∀ i : nat, (2 ≤ i ≤ 14)%nat → rc1 !! i = rc2 !! i) →
  handleHand rc1 sc = handleHand rc2 sc.
Proof.
  intros Hagree.
  unfold handleHand, isFourOfAKind, isFullHouse, isThreeOfAKind, isTwoPair,
    isOnePair.
  rewrite (isStraight_agree rc1 rc2 Hagree).
  by rewrite !(countRanksWithFrequency_agree rc1 rc2 Hagree).
Qed.

Lemma handleHand_ignores_unused_witness :
  handleHand [7; -3; 0; 0; 0; 2; 0; 0; 0; 0; 2; 0; 0; 0; 1] [2; 1; 1; 1]
  = handleHand [0; 0; 0; 0; 0; 2; 0; 0; 0; 0; 2; 0; 0; 0; 1] [2; 1; 1; 1].
Proof.
  apply handleHand_ignores_unused.
  intros i Hi.
  do 15 (destruct i as [|i]; [try lia; reflexivity|]). lia.
Defined.

Example two_pair_unused :
  handleHand [7; -3; 0; 0; 0; 2; 0; 0; 0; 0; 2; 0; 0; 0; 1] [2; 1; 1; 1] = Ok 7.
Proof. by vm_compute. Qed.

(** * Further properties of the program *)

(** ** shuffleDeck and the deck it is given *)

(** The deck shuffleDeck is handed does not matter: it is cleared first,
    so the result depends on the random source alone. *)
Theorem shuffleDeck_ignores_prior_deck (fuel : nat) (rnd : rand_source)
    (pos : nat) (d1 d2 : deck) :
  length d1 = 52%nat → length d2 = 52%nat →
  shuffleDeck fuel rnd pos d1 = shuffleDeck fuel rnd pos d2.
Proof.
  intros H1 H2. unfold shuffleDeck.
  by rewrite (clear_deck_zero d1 H1), (clear_deck_zero d2 H2).
Qed.

Lemma shuffleDeck_ignores_prior_deck_witness :
  shuffleDeck 3 cycle_source 0 (replicate 52 7)
  = shuffleDeck 3 cycle_source 0 cycle_deck.
Proof.
  apply shuffleDeck_ignores_prior_deck; reflexivity.
Defined.

(** ** Assigned slots stay assigned *)

Lemma place_orders_keeps (fuel : nat) (rnd : rand_source) (orders : list Z) :
  ∀ (d : deck) (pos : nat) (d' : deck) (pos' : nat) (j : nat) (v : Z),
    place_orders fuel rnd orders (d, pos) = Ok (d', pos') →
    d !! j = Some v → v ≠ 0 → d' !! j = Some v.
Proof.
  unfold place_orders.
  induction orders as [|i orders IH]; intros d pos d' pos' j v Hrun Hj Hv.
  - simpl in Hrun. by injection Hrun as <- <-.
  - simpl in Hrun.
    apply bind_Ok in Hrun as ([d1 pos1] & Hstep & Hrest).
    apply bind_Ok in Hstep as ([[row col] pos2] & Hdraw & Hstep).
    apply bind_Ok in Hstep as (d2 & Hset & Hstep).
    injection Hstep as -> ->.
    apply draw_empty_slot_Ok, deck_get_Ok in Hdraw as [_ Hzero].
    apply deck_set_Ok in Hset as (_ & _ & ->).
    apply (IH _ _ _ _ j v Hrest); [|done].
    rewrite list_lookup_insert_ne; [done|]. intros <-. congruence.
Qed.

(** On the cleared deck the first draw is always accepted, and no later
    placement overwrites it: the card with order number 1 sits in the
    slot of the first pair of random numbers. *)
Theorem shuffleDeck_first_draw (fuel : nat) (rnd : rand_source) (pos : nat)
    (d d' : deck) (pos' : nat) :
  length d = 52%nat →
  shuffleDeck fuel rnd pos d = Ok (d', pos') →
  deck_get d' (draw rnd pos 0).1 (draw rnd pos 0).2 = Ok 1.
Proof.
  intros Hlen Hrun. unfold shuffleDeck in Hrun.
  rewrite (clear_deck_zero d Hlen) in Hrun.
  remember (replicate 52 0) as zeros eqn:Hz.
  assert (Hzlen : length zeros = 52%nat) by by subst zeros.
  assert (Hzall : ∀ j w, zeros !! j = Some w → w = 0).
  { intros j w Hw. subst zeros. by apply lookup_replicate in Hw as [-> _]. }
  clear Hz.
  cbn [mbind outcome_bind] in Hrun. unfold place_orders in Hrun.
  rewrite seqZ_cons in Hrun by done. cbn [for_each] in Hrun.
  apply bind_Ok in Hrun as ([d1 pos1] & Hstep & Hrest).
  apply bind_Ok in Hstep as ([[row col] pos2] & Hdraw & Hstep).
  apply bind_Ok in Hstep as (d2 & Hset & Hstep).
  injection Hstep as -> ->.
  assert (Hfirst : (row, col) = draw rnd pos 0).
  { destruct fuel as [|fuel]; [discriminate|]. simpl in Hdraw.
    destruct (rem_draw_grid (rnd pos) (rnd (S pos))) as [Hr Hc].
    destruct (deck_get_total zeros _ _ Hzlen Hr Hc) as [w Hw].
    pose proof Hw as [_ Hw']%deck_get_Ok.
    apply Hzall in Hw' as ->.
    rewrite Hw in Hdraw. simpl in Hdraw. injection Hdraw as <- <- <-.
    unfold draw. by replace (pos + 2 * 0)%nat with pos by lia;
      replace (pos + 1)%nat with (S pos) by lia. }
  rewrite <- Hfirst. simpl.
  pose proof Hset as (Hgrid & Hlt & ->)%deck_set_Ok.
  apply deck_get_Ok. split; [done|].
  eapply (place_orders_keeps fuel rnd _ _ _ _ _ _ 1 Hrest); [|done].
  apply list_lookup_insert_eq. lia.
Qed.

Lemma shuffleDeck_first_draw_witness :
  deck_get cycle_deck (draw cycle_source 0 0).1 (draw cycle_source 0 0).2 = Ok 1.
Proof.
  apply (shuffleDeck_first_draw 1 cycle_source 0 (replicate 52 7) cycle_deck 104).
  - reflexivity.
  - vm_compute. reflexivity.
Defined.

(** ** The random numbers shuffleDeck uses *)

Lemma draw_empty_slot_calls (fuel : nat) (rnd : rand_source) (d : deck) :
  ∀ (pos : nat) (row col : Z) (pos' : nat),
    draw_empty_slot fuel rnd pos d = Ok (row, col, pos') →
    ∃ m : nat, (1 ≤ m)%nat ∧ pos' = (pos + 2 * m)%nat ∧
               (row, col) = draw rnd pos (m - 1).
Proof.
  induction fuel as [|fuel IH]; intros pos row col pos' Hrun; [discriminate|].
  simpl in Hrun. apply bind_Ok in Hrun as (v & Hget & Hrun).
  destruct (negb (v =? 0)).
  - apply IH in Hrun as (m & Hm & -> & Hslot). exists (S m).
    split; [lia|]. split; [lia|]. rewrite Hslot. unfold draw.
    by replace (S (S pos) + 2 * (m - 1))%nat
         with (pos + 2 * (S m - 1))%nat by lia.
  - injection Hrun as <- <- <-. exists 1%nat. split; [lia|]. split; [lia|].
    unfold draw. simpl. by replace (pos + 0)%nat with pos by lia;
      replace (pos + 1)%nat with (S pos) by lia.
Qed.

Lemma place_orders_calls (fuel : nat) (rnd : rand_source) (orders : list Z) :
  ∀ (d : deck) (pos : nat) (d' : deck) (pos' : nat),
    place_orders fuel rnd orders (d, pos) = Ok (d', pos') →
    ∃ m : nat, (length orders ≤ m)%nat ∧ pos' = (pos + 2 * m)%nat.
Proof.
  unfold place_orders.
  induction orders as [|i orders IH]; intros d pos d' pos' Hrun.
  - simpl in Hrun. injection Hrun as <- <-. exists 0%nat. simpl. lia.
  - simpl in Hrun.
    apply bind_Ok in Hrun as ([d1 pos1] & Hstep & Hrest).
    apply bind_Ok in Hstep as ([[row col] pos2] & Hdraw & Hstep).
    apply bind_Ok in Hstep as (d2 & Hset & Hstep).
    injection Hstep as -> ->.
    apply draw_empty_slot_calls in Hdraw as (m1 & Hm1 & -> & _).
    apply IH in Hrest as (m2 & Hm2 & ->).
    exists (m1 + m2)%nat. simpl. lia.
Qed.

(** shuffleDeck calls rand() an even number of times, two for every slot
    it draws, and draws at least 52 slots. *)
Theorem shuffleDeck_rand_calls (fuel : nat) (rnd : rand_source) (pos : nat)
    (d d' : deck) (pos' : nat) :
  shuffleDeck fuel rnd pos d = Ok (d', pos') →
  ∃ m : nat, (52 ≤ m)%nat ∧ pos' = (pos + 2 * m)%nat.
Proof.
  intros Hrun. unfold shuffleDeck in Hrun.
  apply bind_Ok in Hrun as (d0 & _ & Hrun).
  apply place_orders_calls in Hrun as (m & Hm & ->).
  exists m. split; [|done]. by rewrite length_seqZ in Hm.
Qed.

Lemma shuffleDeck_rand_calls_witness :
  ∃ m : nat, (52 ≤ m)%nat ∧ 104%nat = (0 + 2 * m)%nat.
Proof.
  apply (shuffleDeck_rand_calls 1 cycle_source 0 (replicate 52 7) cycle_deck 104).
  vm_compute. reflexivity.
Defined.

(** ** Face indices and ranks *)

(** rankValueFromFaceIndex is one-to-one from the face indices 0..12
    onto the ranks 2..14: no two faces share a rank and every rank is the
    rank of a face. *)
Theorem rankValueFromFaceIndex_bijective (q q' r : Z) :
  0 ≤ q ≤ 12 → 0 ≤ q' ≤ 12 → 2 ≤ r ≤ 14 →
  (rankValueFromFaceIndex q = rankValueFromFaceIndex q' → q = q') ∧
  (∃ f, 0 ≤ f ≤ 12 ∧ rankValueFromFaceIndex f = r).
Proof.
  intros Hq Hq' Hr.
  destruct (rank_of_face q Hq) as [Hrq _].
  destruct (rank_of_face q' Hq') as [Hrq' _].
  split.
  - rewrite Hrq, Hrq'. repeat case_decide; lia.
  - destruct (decide (r = 14)) as [->|Hne]; [by exists 0|].
    exists (r - 1). split; [lia|].
    destruct (rank_of_face (r - 1)) as [-> _]; [lia|].
    rewrite decide_False by lia. lia.
Qed.

Lemma rankValueFromFaceIndex_bijective_witness :
  (rankValueFromFaceIndex 0 = rankValueFromFaceIndex 12 → 0 = 12) ∧
  (∃ f, 0 ≤ f ≤ 12 ∧ rankValueFromFaceIndex f = 14).
Proof.
  apply rankValueFromFaceIndex_bijective; lia.
Defined.

(** ** clearCountArrays *)




(** ** No card is dealt twice *)

Lemma hand_cards_of (cs : list (Z * Z)) (rc sc : list Z) :
  hand_cards (Hand (card_suits cs) (card_ranks cs) rc sc)
  = (λ c, (c.1, rankValueFromFaceIndex c.2)) <$> cs.
Proof.
  unfold hand_cards, card_suits, card_ranks. simpl.
  induction cs as [|[p q] cs IH]; [done|]. simpl in *. by f_equal.
Qed.

(** The cards of two ranges of order numbers that do not overlap are
    different slots of the deck. *)
Lemma dealt_disjoint (d : deck) (s1 s2 : Z) (cs1 cs2 : list (Z * Z)) :
  dealt d s1 cs1 → dealt d s2 cs2 →
  s1 + Z.of_nat (length cs1) ≤ s2 → NoDup (cs1 ++ cs2).
Proof.
  intros H1 H2 Hapart. apply NoDup_alt. intros i j [p q] Hi Hj.
  assert (Horder : ∀ k, (cs1 ++ cs2) !! k = Some (p, q) →
            deck_get d p q
            = Ok (if decide (k < length cs1)%nat then s1 + Z.of_nat k
                  else s2 + Z.of_nat (k - length cs1))).
  { intros k Hk. apply lookup_app_Some in Hk as [Hk|[Hge Hk]].
    - rewrite decide_True by (by apply lookup_lt_Some in Hk). by apply H1.
    - rewrite decide_False by lia. by apply H2. }
  pose proof (Horder i Hi) as Hoi. rewrite (Horder j Hj) in Hoi.
  injection Hoi as Hoi. repeat case_decide; lia.
Qed.

Lemma card_of_slot_inj (c c' : Z * Z) :
  0 ≤ c.2 < 13 → 0 ≤ c'.2 < 13 →
  (c.1, rankValueFromFaceIndex c.2) = (c'.1, rankValueFromFaceIndex c'.2) →
  c = c'.
Proof.
  destruct c as [p q], c' as [p' q']. simpl. intros Hq Hq' [= -> Hr].
  f_equal. destruct (rank_of_face q) as [Hrq _]; [lia|].
  destruct (rank_of_face q') as [Hrq' _]; [lia|].
  rewrite Hrq, Hrq' in Hr. repeat case_decide; lia.
Qed.

(** Two hands dealt from a deck that satisfies the bijection invariant,
    from ranges of order numbers that do not overlap (as 1..5 and 6..10
    in main), consist of ten different cards. *)
Theorem dealt_hands_share_no_card (d : deck) (s1 s2 : Z) (h1 h2 : hand) :
  valid_deck d → 1 ≤ s1 → s1 + 5 ≤ s2 → s2 ≤ 48 →
  declared h1 → declared h2 →
  ∃ hA hB, deal_fresh_hand d s1 h1 = Ok hA ∧
           deal_fresh_hand d s2 h2 = Ok hB ∧
           length (hand_cards hA) = 5%nat ∧ length (hand_cards hB) = 5%nat ∧
           NoDup (hand_cards hA ++ hand_cards hB).
Proof.
  intros Hd Hs1 Hs12 Hs2 Hh1 Hh2.
  destruct (deal_fresh_hand_cards d s1 h1 Hd ltac:(lia) Hh1) as (cs1 & Hl1 & Hc1 & ->).
  destruct (deal_fresh_hand_cards d s2 h2 Hd ltac:(lia) Hh2) as (cs2 & Hl2 & Hc2 & ->).
  eexists _, _. split; [done|]. split; [done|].
  rewrite !hand_cards_of, !length_fmap. split; [done|]. split; [done|].
  rewrite <- fmap_app. apply NoDup_fmap_2_strong.
  - intros c c' Hc Hc' Heq.
    assert (Hgrid : Forall (λ c, (0 ≤ c.1 < 4) ∧ (0 ≤ c.2 < 13)) (cs1 ++ cs2)).
    { apply Forall_app. split; eapply dealt_grid; eauto. }
    rewrite Forall_forall in Hgrid.
    apply card_of_slot_inj; [by apply Hgrid|by apply Hgrid|done].
  - apply (dealt_disjoint d s1 s2); [done|done|lia].
Qed.

Lemma dealt_hands_share_no_card_witness :
  ∃ hA hB, deal_fresh_hand cycle_deck 1 zero_hand = Ok hA ∧
           deal_fresh_hand cycle_deck 6 zero_hand = Ok hB ∧
           length (hand_cards hA) = 5%nat ∧ length (hand_cards hB) = 5%nat ∧
           NoDup (hand_cards hA ++ hand_cards hB).
Proof.
  apply dealt_hands_share_no_card.
  - exact cycle_deck_valid.
  - lia.
  - lia.
  - lia.
  - repeat split.
  - repeat split.
Defined.

(** ** Flushes of five-card hands *)

Lemma filter_all {A : Type} (P : A → Prop) `{∀ x, Decision (P x)} (l : list A) :
  length (filter P l) = length l → Forall P l.
Proof.
  induction l as [|x l IH]; [done|]. rewrite filter_cons.
  pose proof (length_filter P l) as Hle.
  destruct (decide (P x)); simpl; intros Hlen.
  - constructor; [done|]. apply IH. lia.
  - lia.
Qed.

Lemma entry_suit_table (suits : list Z) (s : Z) :
  0 ≤ s < 4 →
  entry (suit_table suits) s = Z.of_nat (length (filter (λ x, x = s) suits)).
Proof.
  intros Hs. unfold entry, suit_table.
  rewrite lookup_count_table by lia. simpl. by rewrite Z2Nat.id by lia.
Qed.

(** isFlush says yes on the suit table of a five-card hand exactly when
    the five cards are of one suit. *)
Theorem isFlush_hand (suits : list Z) :
  length suits = 5%nat → Forall (λ s, 0 ≤ s ≤ 3) suits →
  ∃ b, isFlush (suit_table suits) = Ok b ∧
       (b = true ↔ ∃ s, suits = replicate 5 s).
Proof.
  intros Hlen Hrange.
  destruct (isFlush_spec (suit_table suits)) as (b & Hrun & Hb).
  { unfold suit_table. by rewrite length_count_table. }
  exists b. split; [done|]. rewrite Hb. unfold flush. split.
  - intros (s & Hs & He). exists s.
    rewrite entry_suit_table in He by lia.
    symmetry. apply replicate_as_Forall. split; [done|].
    eapply Forall_impl; [apply (filter_all (λ x, x = s)); lia|]. done.
  - intros (s & Heq).
    assert (Hs : 0 ≤ s ≤ 3).
    { rewrite Heq in Hrange. by apply Forall_cons in Hrange as [? _]. }
    exists s. split; [done|]. rewrite entry_suit_table by lia.
    rewrite Heq. cbn [replicate]. by rewrite !filter_cons_True.
Qed.

Lemma isFlush_hand_witness :
  ∃ b, isFlush (suit_table [2; 2; 2; 2; 2]) = Ok b ∧
       (b = true ↔ ∃ s, [2; 2; 2; 2; 2] = replicate 5 s).
Proof.
  apply isFlush_hand.
  - reflexivity.
  - repeat constructor; lia.
Defined.

(** ** Straights of five-card hands in the ladder *)

Lemma NoDup_count_le (l : list Z) (r : Z) :
  NoDup l → (length (filter (λ x, x = r) l) ≤ 1)%nat.
Proof.
  induction 1 as [|x l Hx _ IH]; [simpl; lia|].
  rewrite filter_cons. case_decide as Hxr; [|done]. subst x. simpl.
  destruct (filter (λ x, x = r) l) as [|y l'] eqn:E; [simpl; lia|].
  assert (Hy : y ∈ filter (λ x, x = r) l) by (rewrite E; left).
  apply list_elem_of_filter in Hy as [-> Hy]. done.
Qed.

Lemma straight_hand_entries (ranks : list Z) (r : Z) :
  length ranks = 5%nat → straight (rank_table ranks) → 0 ≤ r < 15 →
  entry (rank_table ranks) r ≤ 1.
Proof.
  intros Hlen Hs Hr. rewrite entry_rank_table by done.
  assert (Hnd : NoDup ranks).
  { apply (straight_hand ranks Hlen) in Hs as [(lo & _ & ->)| ->].
    - apply NoDup_seqZ.
    - apply (bool_decide_unpack _). by vm_compute. }
  pose proof (NoDup_count_le ranks r Hnd). lia.
Qed.

(** A five-card hand that is a straight never also counts as four of a
    kind or a full house, so handleHand gives it priority 1 when the suit
    table shows a flush and 5 when it does not. *)
Theorem handleHand_straight_hand (ranks sc : list Z) :
  length ranks = 5%nat → length sc = 4%nat →
  isStraight (rank_table ranks) = Ok true →
  ∃ f : bool, isFlush sc = Ok f ∧
              handleHand (rank_table ranks) sc = Ok (if f then 1 else 5).
Proof.
  intros Hlen Hsc Hrun.
  assert (Hrc : length (rank_table ranks) = 15%nat)
    by (unfold rank_table; by rewrite length_count_table).
  destruct (isStraight_spec _ Hrc) as (b & Hb & Hstraight).
  rewrite Hrun in Hb. injection Hb as <-.
  assert (Hs : straight (rank_table ranks)) by by apply Hstraight.
  assert (Hno : ∀ n, 2 ≤ n → ¬ one_rank (rank_table ranks) n).
  { intros n Hn (r & [Hr He] & _).
    pose proof (straight_hand_entries ranks r Hlen Hs ltac:(lia)). lia. }
  destruct (isFlush_spec sc Hsc) as (f & Hf & Hflush).
  exists f. split; [done|].
  destruct (handleHand_category _ sc Hrc Hsc) as (n & -> & Hcat & _).
  f_equal. unfold category in Hcat. simpl in Hcat.
  pose proof (Hno 4 ltac:(lia)) as H4. pose proof (Hno 3 ltac:(lia)) as H3.
  destruct f.
  - assert (flush sc) by by apply Hflush. tauto.
  - assert (¬ flush sc) by (intros Hfl%Hflush; discriminate). tauto.
Qed.

Lemma handleHand_straight_hand_witness :
  ∃ f : bool, isFlush [1; 2; 1; 1] = Ok f ∧
              handleHand (rank_table [14; 3; 2; 5; 4]) [1; 2; 1; 1]
              = Ok (if f then 1 else 5).
Proof.
  apply handleHand_straight_hand.
  - reflexivity.
  - reflexivity.
  - vm_compute. reflexivity.
Defined.

(** ** Dealing into tables that are not cleared *)










(** ** main *)

(** The whole program: on a fair random source main runs to its end
    without leaving an array and without looping for ever, whatever the
    uninitialised deck array held.  The deck it has shuffled satisfies
    the bijection invariant, both priorities are between 1 and 9, and the
    message names the hand with the strictly smaller priority, or a tie
    when the priorities are equal. *)
Theorem main_completes (rnd : rand_source) (deck0 : deck) :
  length deck0 = 52%nat → fair_from rnd 0 →
  ∃ fuel0 res,
    (∀ fuel deck1, (fuel0 ≤ fuel)%nat → length deck1 = 52%nat →
       main fuel rnd deck1 = Ok res) ∧
    valid_deck (shuffled res) ∧
    deal_fresh_hand (shuffled res) 1 zero_hand = Ok (handA res) ∧
    deal_fresh_hand (shuffled res) 6 zero_hand = Ok (handB res) ∧
    1 ≤ priorityA res ≤ 9 ∧ 1 ≤ priorityB res ≤ 9 ∧
    (winner res = HAND_A_wins ↔ priorityA res < priorityB res) ∧
    (winner res = HAND_B_wins ↔ priorityB res < priorityA res) ∧
    (winner res = Tie ↔ priorityA res = priorityB res).
Proof.
  intros Hlen Hfair.
  destruct (place_orders_terminates rnd 52 0 0 (replicate 52 0) 0%nat)
    as (fuel0 & d & pos' & Hshuffle); [done|done|done|].
  assert (Hd : valid_deck d).
  { apply (place_orders_perm fuel0 rnd 52 0 0 (replicate 52 0) 0%nat d pos');
      [done|]. by apply Hshuffle. }
  assert (Hzero : declared zero_hand) by repeat split.
  destruct (deal_fresh_hand_cards d 1 zero_hand Hd ltac:(lia) Hzero)
    as (csA & _ & _ & HA).
  destruct (deal_fresh_hand_cards d 6 zero_hand Hd ltac:(lia) Hzero)
    as (csB & _ & _ & HB).
  set (hA := Hand (card_suits csA) (card_ranks csA)
                  (rank_table (card_ranks csA)) (suit_table (card_suits csA))) in *.
  set (hB := Hand (card_suits csB) (card_ranks csB)
                  (rank_table (card_ranks csB)) (suit_table (card_suits csB))) in *.
  destruct (handleHand_category (rankCount hA) (suitCount hA))
    as (pA & HpA & _ & HrA);
    [apply length_count_table..|].
  destruct (handleHand_category (rankCount hB) (suitCount hB))
    as (pB & HpB & _ & HrB);
    [apply length_count_table..|].
  exists fuel0. eexists. split; [|split; [|split; [|split]]].
  - intros fuel deck1 Hfuel Hlen1. unfold main, shuffleDeck.
    rewrite (clear_deck_zero deck1 Hlen1). cbn [mbind outcome_bind].
    pose proof (Hshuffle fuel Hfuel) as Hs.
    change (seqZ (1 + Z.of_nat 0) (Z.of_nat 52)) with (seqZ 1 DECKSIZE) in Hs.
    rewrite Hs. cbn [mbind outcome_bind].
    rewrite HA. cbn [mbind outcome_bind]. rewrite HpA. cbn [mbind outcome_bind].
    rewrite HB. cbn [mbind outcome_bind]. rewrite HpB. cbn [mbind outcome_bind].
    reflexivity.
  - exact Hd.
  - exact HA.
  - exact HB.
  - cbn [priorityA priorityB winner].
    split; [done|]. split; [done|].
    destruct (Z.ltb_spec pA pB), (Z.ltb_spec pB pA);
      repeat split; intros; (done || lia).
Qed.

Lemma main_completes_witness :
  ∃ fuel0 res,
    (∀ fuel deck1, (fuel0 ≤ fuel)%nat → length deck1 = 52%nat →
       main fuel cycle_source deck1 = Ok res) ∧
    valid_deck (shuffled res) ∧
    deal_fresh_hand (shuffled res) 1 zero_hand = Ok (handA res) ∧
    deal_fresh_hand (shuffled res) 6 zero_hand = Ok (handB res) ∧
    1 ≤ priorityA res ≤ 9 ∧ 1 ≤ priorityB res ≤ 9 ∧
    (winner res = HAND_A_wins ↔ priorityA res < priorityB res) ∧
    (winner res = HAND_B_wins ↔ priorityB res < priorityA res) ∧
    (winner res = Tie ↔ priorityA res = priorityB res).
Proof.
  apply (main_completes cycle_source (replicate 52 7)).
  - reflexivity.
  - exact cycle_source_fair.
Defined.

Example main_cycle :
  main 1 cycle_source (replicate 52 7)
  = Ok (MainResult cycle_deck
          (Hand [0; 1; 2; 3; 0] [14; 2; 3; 4; 5]
                (rank_table [14; 2; 3; 4; 5]) [2; 1; 1; 1])
          (Hand [1; 2; 3; 0; 1] [6; 7; 8; 9; 10]
                (rank_table [6; 7; 8; 9; 10]) [1; 2; 1; 1])
          5 5 Tie).
Proof. vm_compute. reflexivity. Qed.

(** ** A rank table that is too short *)

Lemma load_short (a : list Z) (r : Z) :
  Z.of_nat (length a) ≤ r → load a r = Fault.
Proof.
  intros Hr. unfold load. destruct (0 <=? r); [|done].
  by rewrite lookup_ge_None_2 by lia.
Qed.

Lemma count_loop_fault (rc : list Z) (N : Z) (idx : list Z) (r0 c : Z) :
  r0 ∈ idx → load rc r0 = Fault →
  for_each idx (λ r count,
    v ← load rc r;
    if v =? N then Ok (int_add count 1) else Ok count) c
  = Fault.
Proof.
  intros Hin Hfault. revert c.
  induction idx as [|r idx IH]; intros c; [by apply elem_of_nil in Hin|].
  simpl. destruct (load rc r) as [v| |] eqn:E; simpl.
  - apply elem_of_cons in Hin as [->|Hin]; [congruence|].
    destruct (v =? N); by apply IH.
  - done.
  - unfold load in E. destruct (0 <=? r); [|done].
    by destruct (rc !! Z.to_nat r).
Qed.

(** Every classification starts by reading the rank counts up to index
    14: with a rank table of fewer than 15 entries handleHand reads past
    its end, whatever the tables hold. *)
Theorem handleHand_short_rank_table (rc sc : list Z) :
  (length rc < 15)%nat → handleHand rc sc = Fault.
Proof.
  intros Hlen.
  assert (Hcount : countRanksWithFrequency rc 1 = Fault).
  { unfold countRanksWithFrequency.
    apply (count_loop_fault rc 1 _ 14); [apply elem_of_seqZ; lia|].
    apply load_short. lia. }
  unfold handleHand, first_match, and_then, isStraight. by rewrite Hcount.
Qed.

Lemma handleHand_short_rank_table_witness :
  handleHand [0; 0; 1; 1; 1; 1; 1; 0; 0; 0; 0; 0; 0; 0] [5; 0; 0; 0] = Fault.
Proof.
  apply handleHand_short_rank_table. simpl. lia.
Defined.

(** ** Dealing from a deck that is not a bijection *)

(** A loop whose iteration [i] adds [w i] to a counter that must stay
    below [B]. *)
Lemma for_each_weighted {S : Type} (P : nat → S → Prop) (idx : list Z)
    (body : Z → S → outcome S) (w : Z → nat) (B : nat) :
  (∀ i n s, i ∈ idx → (n + w i ≤ B)%nat → P n s →
     ∃ s', body i s = Ok s' ∧ P (n + w i)%nat s') →
  ∀ n s, (n + sum_list_with w idx ≤ B)%nat → P n s →
    ∃ s', for_each idx body s = Ok s' ∧ P (n + sum_list_with w idx)%nat s'.
Proof.
  induction idx as [|i idx IH]; intros Hbody n s Hn Hs; simpl in *.
  - exists s. split; [done|]. by rewrite Nat.add_0_r.
  - destruct (Hbody i n s) as (s1 & -> & Hs1); [left|lia|done|].
    simpl. destruct (IH) with (n := (n + w i)%nat) (s := s1) as (s2 & Hrun & Hs2).
    + intros j m t Hj. apply Hbody. by right.
    + lia.
    + done.
    + exists s2. split; [done|]. by rewrite Nat.add_assoc.
Qed.

Lemma record_card_counts (k p q : Z) (n : nat) (h : hand) :
  counts_cards n h → (n < 1000)%nat → 0 ≤ k < 5 → 0 ≤ p < 4 → 0 ≤ q < 13 →
  ∃ h', record_card k p q h = Ok h' ∧ counts_cards (S n) h'.
Proof.
  intros ((Hhs & Hhr & Hrc & Hsc) & cs & Hlen & Hgrid & Hr & Hs) Hn Hk Hp Hq.
  destruct (rank_of_face q) as [_ Hrank]; [lia|].
  unfold record_card. rewrite !store_in_range by lia. simpl.
  rewrite Hr, Hs. unfold rank_table, suit_table.
  rewrite !incr_count_table
    by (unfold card_ranks, card_suits; rewrite ?length_fmap; lia).
  simpl. eexists. split; [done|]. split.
  - unfold declared. simpl.
    rewrite !length_insert, ?length_count_table. by repeat split.
  - exists (cs ++ [(p, q)]). simpl.
    split; [rewrite length_app; simpl; lia|].
    split; [apply Forall_app; split; [done|]; by apply Forall_singleton|].
    unfold rank_table, suit_table, card_ranks, card_suits.
    by rewrite !fmap_app.
Qed.

Lemma sum_list_with_le {A : Type} (f : A → nat) (c : nat) (l : list A) :
  (∀ x, f x ≤ c)%nat → (sum_list_with f l ≤ c * length l)%nat.
Proof.
  intros Hf. induction l as [|x l IH]; simpl; [lia|].
  pose proof (Hf x). lia.
Qed.

Lemma slot_hits_le (d : deck) (v : Z) : (slot_hits d v ≤ 52)%nat.
Proof.
  unfold slot_hits.
  etrans; [apply (sum_list_with_le _ 13)|by rewrite length_seqZ].
  intros p. etrans; [apply (sum_list_with_le _ 1)|by rewrite length_seqZ].
  intros q. unfold slot_hit. case_bool_decide; lia.
Qed.

Lemma scan_deck_counts (d : deck) (v k : Z) (n : nat) (h : hand) :
  length d = 52%nat → 0 ≤ k < 5 → (n + slot_hits d v ≤ 1000)%nat →
  counts_cards n h →
  ∃ h', scan_deck d v k h = Ok h' ∧ counts_cards (n + slot_hits d v) h'.
Proof.
  intros Hlen Hk Hn Hh. unfold scan_deck, slot_hits.
  apply (for_each_weighted counts_cards _ _ _ 1000); [|done|done].
  intros p m t Hp%elem_of_seqZ_0 Hm Ht.
  apply (for_each_weighted counts_cards _ _ _ 1000); [|done|done].
  intros q j u Hq%elem_of_seqZ_0 Hj Hu.
  unfold deck_get. rewrite (proj2 (in_grid_spec p q)) by done.
  rewrite load_entry by lia. simpl. unfold slot_hit in *.
  destruct (Z.eqb_spec (entry d (13 * p + q)) v) as [He|He].
  - rewrite bool_decide_eq_true_2 in Hj |- * by done.
    replace (j + 1)%nat with (S j) by lia.
    apply record_card_counts; (done || lia).
  - rewrite bool_decide_eq_false_2 by done. rewrite Nat.add_0_r. by exists u.
Qed.

Example deal_all_threes :
  deal_fresh_hand (replicate 52 3) 1 zero_hand
  = Ok (Hand [0; 0; 3; 0; 0] [0; 0; 13; 0; 0]
             [0; 0; 4; 4; 4; 4; 4; 4; 4; 4; 4; 4; 4; 4; 4] [13; 13; 13; 13]).
Proof. vm_compute. reflexivity. Qed.

Lemma rows_flat (g : Z → nat) :
  sum_list_with (λ p, sum_list_with (λ q, g (13 * p + q)) (seqZ 0 13)) (seqZ 0 4)
  = sum_list_with g (seqZ 0 52).
Proof.
  let l := eval vm_compute in (seqZ 0 4) in change (seqZ 0 4) with l.
  let l := eval vm_compute in (seqZ 0 13) in change (seqZ 0 13) with l.
  let l := eval vm_compute in (seqZ 0 52) in change (seqZ 0 52) with l.
  simpl.
  repeat match goal with
  | |- context [g (13 * ?p + ?q)] =>
      let i := eval vm_compute in (13 * p + q) in
      change (13 * p + q) with i
  end.
  lia.
Qed.

Lemma hits_from (v : Z) (d pre : list Z) :
  sum_list_with (λ i, if bool_decide (entry (pre ++ d) i = v) then 1 else 0)%nat
    (seqZ (Z.of_nat (length pre)) (Z.of_nat (length d)))
  = length (filter (λ x, x = v) d).
Proof.
  revert pre. induction d as [|x d IH]; intros pre; [done|].
  rewrite seqZ_cons by (simpl; lia). cbn [sum_list_with].
  assert (Hx : entry (pre ++ x :: d) (Z.of_nat (length pre)) = x).
  { unfold entry. rewrite Nat2Z.id, lookup_app_r by lia.
    by rewrite Nat.sub_diag. }
  rewrite Hx, filter_cons.
  replace (Z.succ (Z.of_nat (length pre)))
    with (Z.of_nat (length (pre ++ [x]))) by (rewrite length_app; simpl; lia).
  replace (Z.pred (Z.of_nat (length (x :: d)))) with (Z.of_nat (length d))
    by (simpl; lia).
  replace (pre ++ x :: d) with ((pre ++ [x]) ++ d) by by rewrite <- app_assoc.
  rewrite IH. case_bool_decide; case_decide; simpl; (done || lia).
Qed.

Lemma slot_hits_filter (d : deck) (v : Z) :
  length d = 52%nat → slot_hits d v = length (filter (λ x, x = v) d).
Proof.
  intros Hlen.
  etrans; [exact (rows_flat (λ i, if bool_decide (entry d i = v) then 1 else 0)%nat)|].
  pose proof (hits_from v d []) as H. rewrite Hlen in H. exact H.
Qed.

Lemma count_range (d : list Z) (start : Z) :
  sum_list_with (λ k, length (filter (λ x, x = start + k) d)) (seqZ 0 5)
  = length (filter (λ x, start ≤ x ≤ start + 4) d).
Proof.
  let l := eval vm_compute in (seqZ 0 5) in change (seqZ 0 5) with l.
  cbn [sum_list_with].
  induction d as [|x d IH]; [done|].
  rewrite !filter_cons. repeat case_decide; simpl; lia.
Qed.

(** Whatever the 52 slots of the deck hold (order numbers missing or
    repeated), clearing and dealing leaves two tables that agree: the
    counts in entries 2..14 of the rank table and those of the suit table
    both sum to the number of slots that hold an order value of
    start..start+4, and no count is negative. *)
Theorem deal_tables_count_slots (d : deck) (start : Z) (h : hand) :
  length d = 52%nat → declared h → -2147483648 ≤ start ≤ 2147483643 →
  ∃ h', deal_fresh_hand d start h = Ok h' ∧
    table_sum (rankCount h') 2 13
      = Z.of_nat (length (filter (λ x, start ≤ x ≤ start + 4) d)) ∧
    table_sum (suitCount h') 0 4
      = Z.of_nat (length (filter (λ x, start ≤ x ≤ start + 4) d)) ∧
    Forall (λ x, 0 ≤ x) (rankCount h') ∧ Forall (λ x, 0 ≤ x) (suitCount h').
Proof.
  intros Hlen (Hhs & Hhr & Hrc & Hsc) Hstart.
  unfold deal_fresh_hand. rewrite (clearCountArrays_zero _ _ Hrc Hsc).
  cbn [mbind outcome_bind]. unfold dealFiveCardHandFromOrderRange.
  set (w := λ k, slot_hits d (int_add start k)).
  assert (Hw : sum_list_with w (seqZ 0 HANDSIZE)
               = length (filter (λ x, start ≤ x ≤ start + 4) d)).
  { rewrite <- count_range. unfold HANDSIZE.
    let l := eval vm_compute in (seqZ 0 5) in change (seqZ 0 5) with l.
    cbn [sum_list_with]. unfold w, int_add.
    rewrite !wrap_small by lia. by rewrite !slot_hits_filter. }
  destruct (for_each_weighted counts_cards (seqZ 0 HANDSIZE)
    (λ dealIdx h, scan_deck d (int_add start dealIdx) dealIdx h) w 1000)
    with (n := 0%nat)
         (s := Hand (handSuite h) (handRank h) (replicate 15 0) (replicate 4 0))
    as (h' & Hrun & Hh').
  - intros k m t Hk%elem_of_seqZ_0 Hm Ht. by apply scan_deck_counts.
  - rewrite Hw. pose proof (length_filter (λ x, start ≤ x ≤ start + 4) d). lia.
  - split; [by repeat split|]. exists []. by repeat split.
  - destruct Hh' as (_ & cs & Hcs & Hgrid & Hr & Hs).
    rewrite Hw in Hcs. simpl in Hcs.
    exists h'. split; [done|]. rewrite Hr, Hs.
    assert (Hranks : Forall (λ r, 2 ≤ r ≤ 14) (card_ranks cs)).
    { unfold card_ranks. apply Forall_fmap.
      eapply Forall_impl; [exact Hgrid|]. intros [p q] [_ Hq]. simpl in *.
      apply rank_of_face. lia. }
    assert (Hsuits : Forall (λ s, 0 ≤ s ≤ 3) (card_suits cs)).
    { unfold card_suits. apply Forall_fmap.
      eapply Forall_impl; [exact Hgrid|]. intros [p q] [Hp _]. simpl in *. lia. }
    rewrite (sum_rank_table _ Hranks), (sum_suit_table _ Hsuits).
    unfold card_ranks, card_suits. rewrite !length_fmap, Hcs.
    split; [done|]. split; [done|].
    unfold rank_table, suit_table, count_table.
    split; apply Forall_fmap, Forall_forall; intros; simpl; lia.
Qed.

Lemma deal_tables_count_slots_witness :
  ∃ h', deal_fresh_hand (replicate 52 3) 1 zero_hand = Ok h' ∧
    table_sum (rankCount h') 2 13
      = Z.of_nat (length (filter (λ x, 1 ≤ x ≤ 1 + 4) (replicate 52 3))) ∧
    table_sum (suitCount h') 0 4
      = Z.of_nat (length (filter (λ x, 1 ≤ x ≤ 1 + 4) (replicate 52 3))) ∧
    Forall (λ x, 0 ≤ x) (rankCount h') ∧ Forall (λ x, 0 ≤ x) (suitCount h').
Proof.
  apply deal_tables_count_slots.
  - reflexivity.
  - repeat split.
  - lia.
Defined.
